(** * CRUD services of the FastAPI repository: a shallow embedding

    Three services are modelled, each from its source file:
    - [Todo]       the todo API over a MongoDB collection (MongoDB/routes/route.py,
                   MongoDB/schema/schemas.py, MongoDB/models/todos.py);
    - [Relational] the book API over SQLAlchemy and SQLite (SQL/main.py,
                   SQL/models.py, SQL/schemas.py);
    - [InMemory]   the book API over the process-wide list BOOKS (basics.py).

    Handlers are functions in a small state-and-exception monad over the
    store.  What the handlers read from their environment (the clock, a
    freshly generated identifier) is an explicit argument. *)

From Stdlib Require Import ZArith Ascii Floats Uint63.
From stdpp Require Import gmap strings list fin_maps pretty.

Local Open Scope string_scope.
Local Open Scope Z_scope.
Local Open Scope list_scope.

(** ** Exceptions and the handler monad *)

(** [HTTPException] is FastAPI's exception, answered with its status code.
    Any other exception escapes the handler and is answered with status 500;
    the ones that the modelled code can meet are listed. *)
Inductive error :=
  | HTTPException (status_code : Z) (detail : string)
  | IntegrityError
  | InvalidRequestError
  | DuplicateKeyError
  | TypeError.

Inductive outcome (A : Type) :=
  | Return (a : A)
  | Raise (e : error).
Arguments Return {A} a.
Arguments Raise {A} e.

Definition HTTP_200_OK : Z := 200.
Definition HTTP_400_BAD_REQUEST : Z := 400.
Definition HTTP_404_NOT_FOUND : Z := 404.

(** The status code of the answer to a request: the one its route declares
    ([status_code=...] in the decorator, 200 when it declares none) when the
    handler returns, the one of the [HTTPException] when it raises one, and
    500 for any other exception. *)
Definition answered {A} (declared : Z) (o : outcome A) : Z :=
  match o with
  | Return _ => declared
  | Raise (HTTPException status_code _) => status_code
  | Raise _ => 500
  end.

(** A computation over a store of type [S]. *)
Definition handler (S A : Type) : Type := S → outcome A * S.

Definition ret {S A} (a : A) : handler S A := λ s, (Return a, s).

Definition raise {S A} (e : error) : handler S A := λ s, (Raise e, s).

Definition bind {S A B} (m : handler S A) (k : A → handler S B) : handler S B :=
  λ s, match m s with
       | (Return a, s') => k a s'
       | (Raise e, s') => (Raise e, s')
       end.

Notation "x <~ m ;; k" := (bind m (λ x, k))
  (at level 100, m at next level, right associativity).
Notation "m ;;; k" := (bind m (λ _, k))
  (at level 100, right associativity).

(** A field of an update body as the client sent it: left out, sent as
    [null], or sent with a value. *)
Inductive sent (A : Type) :=
  | Omitted
  | Null
  | Given (a : A).
Arguments Omitted {A}.
Arguments Null {A}.
Arguments Given {A} a.

(** ** Python numbers *)

Module PyNum.

(** A JSON number of a response: a Python [int] or a [float] (binary64). *)
Inductive number :=
  | PyInt (z : Z)
  | PyFloat (x : float).

(** [float(z)]; exact for |z| < 2^53. *)
Definition float_of_int (z : Z) : float :=
  if z <? 0 then PrimFloat.opp (PrimFloat.of_uint63 (Uint63.of_Z (- z)))
  else PrimFloat.of_uint63 (Uint63.of_Z z).

(** [a / b] on integers, for [b <> 0]: the float nearest to the quotient
    (for operands below 2^53, the division of the two converted operands). *)
Definition truediv (a b : Z) : float :=
  PrimFloat.div (float_of_int a) (float_of_int b).

(** The integer nearest to [n / d] for [0 < d], a tie going to the even one. *)
Definition nearest_even (n d : Z) : Z :=
  let q := n / d in
  let r := n mod d in
  if 2 * r <? d then q
  else if d <? 2 * r then q + 1
  else if Z.even q then q else q + 1.

(** [round(x, ndigits)] on a float, for [0 <= ndigits]: the float nearest to
    the decimal with [ndigits] places that is nearest to the exact value of
    [x] (ties to even), as CPython computes it through the correctly rounded
    decimal string of [x]. *)
Definition round (x : float) (ndigits : Z) : float :=
  match Prim2SF x with
  | S754_finite s m e =>
      if 0 <=? e then x
      else
        let h := nearest_even (Z.pos m * 10 ^ ndigits) (2 ^ (- e)) in
        let r := PrimFloat.div (float_of_int h) (float_of_int (10 ^ ndigits)) in
        if s then PrimFloat.opp r else r
  | _ => x
  end.

End PyNum.

(** ** The todo service (MongoDB) *)

(** The part of the [bson] package the routes use.  [ObjectId s] is the
    constructor applied to a string: [None] stands for [InvalidId]. *)
Class Bson := {
  ObjId : Type;
  ObjId_eq_dec :: EqDecision ObjId;
  ObjectId : string → option ObjId;
  ObjId_str : ObjId → string;
}.

Module Todo.
Section Routes.
Context `{Bson}.

(** Values of document fields, of the kinds the routes write.  [VDate t] is
    a UTC datetime as the collection keeps it, [t] counted in milliseconds
    since the epoch. *)
Inductive value :=
  | VStr (s : string)
  | VBool (b : bool)
  | VDate (t : Z)
  | VNull.

#[export] Instance value_eq_dec : EqDecision value.
Proof. solve_decision. Defined.

(** A stored document: the identifier MongoDB keeps under ["_id"], and the
    remaining fields as a dictionary. *)
Record document := Document {
  _id : ObjId;
  fields : gmap string value;
}.

(** A query document such as [{"_id": oid}], [{"complete": True}] or [{}]:
    a conjunction of equalities. *)
Record query := Query {
  q_id : option ObjId;
  q_fields : gmap string value;
}.

Definition by_id (oid : ObjId) : query := Query (Some oid) ∅.
Definition by_fields (m : gmap string value) : query := Query None m.

Definition Matches (q : query) (d : document) : Prop :=
  match q_id q with Some oid => _id d = oid | None => True end ∧
  map_Forall (λ k v, fields d !! k = Some v) (q_fields q).

#[export] Instance Matches_dec q d : Decision (Matches q d).
Proof. unfold Matches. destruct (q_id q); apply _. Defined.

(** The calls made on the collection, in the order they are made. *)
Inductive storage_call :=
  | call_find_one
  | call_insert_one
  | call_update_one
  | call_delete_one
  | call_delete_many
  | call_count_documents.

Record collection := Collection {
  docs : list document;
  calls : list storage_call;
}.

Definition logged (c : storage_call) (w : collection) (l : list document) : collection :=
  Collection l (calls w ++ [c]).

(** [$set]: the pairs of the update document are written over the fields. *)
Definition set_fields (upd : list (string * value)) (f : gmap string value)
  : gmap string value :=
  foldl (λ acc kv, <[kv.1 := kv.2]> acc) f upd.

Definition find_one (q : query) : handler collection (option document) :=
  λ w, (Return (snd <$> list_find (Matches q) (docs w)), logged call_find_one w (docs w)).

(** [insert_one]: the driver gives the document the generated identifier
    [new_id]; the unique index on ["_id"] refuses a duplicate. *)
Definition insert_one (new_id : ObjId) (f : gmap string value) : handler collection ObjId :=
  λ w, match list_find (Matches (by_id new_id)) (docs w) with
       | Some _ => (Raise DuplicateKeyError, logged call_insert_one w (docs w))
       | None => (Return new_id, logged call_insert_one w (docs w ++ [Document new_id f]))
       end.

Definition update_one (q : query) (upd : list (string * value)) : handler collection unit :=
  λ w, match list_find (Matches q) (docs w) with
       | Some (i, d) =>
           (Return (), logged call_update_one w
                          (<[i := Document (_id d) (set_fields upd (fields d))]> (docs w)))
       | None => (Return (), logged call_update_one w (docs w))
       end.

(** [delete_one] and [delete_many] return [deleted_count]. *)
Definition delete_one (q : query) : handler collection Z :=
  λ w, match list_find (Matches q) (docs w) with
       | Some (i, _) => (Return 1, logged call_delete_one w (delete i (docs w)))
       | None => (Return 0, logged call_delete_one w (docs w))
       end.

Definition delete_many (q : query) : handler collection Z :=
  λ w, (Return (Z.of_nat (length (filter (Matches q) (docs w)))),
        logged call_delete_many w (filter (λ d, ¬ Matches q d) (docs w))).

Definition count_documents (q : query) : handler collection Z :=
  λ w, (Return (Z.of_nat (length (filter (Matches q) (docs w)))),
        logged call_count_documents w (docs w)).

(** *** models/todos.py *)

Record TodoCreate := {
  tc_name : string;
  tc_description : string;
  tc_complete : bool;
}.

Record TodoUpdate := {
  tu_name : sent string;
  tu_description : sent string;
  tu_complete : sent bool;
}.

(** The attribute of a parsed model: [None] is the default of every field of
    [TodoUpdate], so a field left out and a field sent as [null] read alike. *)
Definition attribute {A} (inj : A → value) (x : sent A) : value :=
  match x with
  | Given a => inj a
  | Omitted | Null => VNull
  end.

Definition TodoUpdate_model_dump (t : TodoUpdate) : list (string * value) :=
  [("name", attribute VStr (tu_name t));
   ("description", attribute VStr (tu_description t));
   ("complete", attribute VBool (tu_complete t))].

Definition TodoCreate_model_dump (t : TodoCreate) : list (string * value) :=
  [("name", VStr (tc_name t));
   ("description", VStr (tc_description t));
   ("complete", VBool (tc_complete t))].

(** *** schema/schemas.py *)

Record serial := Serial {
  s_id : string;
  s_name : value;
  s_description : value;
  s_complete : value;
  s_created_at : value;
  s_updated_at : value;
}.

Definition individual_serial (todo : document) : serial :=
  {| s_id := ObjId_str (_id todo);
     s_name := default (VStr "") (fields todo !! "name");
     s_description := default (VStr "") (fields todo !! "description");
     s_complete := default (VBool false) (fields todo !! "complete");
     s_created_at := default VNull (fields todo !! "created_at");
     s_updated_at := default VNull (fields todo !! "updated_at") |}.

(** *** routes/route.py *)

Definition validate_object_id (id : string) : handler collection ObjId :=
  match ObjectId id with
  | Some oid => ret oid
  | None => raise (HTTPException HTTP_400_BAD_REQUEST ("Invalid ID format: " +:+ id))
  end.

Definition not_found {A} (id : string) : handler collection A :=
  raise (HTTPException HTTP_404_NOT_FOUND ("Todo with ID " +:+ id +:+ " not found")).

Definition get_todo (id : string) : handler collection serial :=
  object_id <~ validate_object_id id;;
  todo <~ find_one (by_id object_id);;
  match todo with
  | None => not_found id
  | Some todo => ret (individual_serial todo)
  end.

(** [now1] and [now2] are the two readings of [datetime.utcnow()]. *)
Definition create_todo (new_id : ObjId) (todo : TodoCreate) (now1 now2 : Z)
  : handler collection serial :=
  let todo_dict := TodoCreate_model_dump todo
                   ++ [("created_at", VDate now1)] ++ [("updated_at", VDate now2)] in
  inserted_id <~ insert_one new_id (set_fields todo_dict ∅);;
  created_todo <~ find_one (by_id inserted_id);;
  match created_todo with
  | None => raise TypeError
  | Some created_todo => ret (individual_serial created_todo)
  end.

Definition is_not_None (v : value) : bool :=
  match v with VNull => false | _ => true end.

Definition update_todo (id : string) (todo : TodoUpdate) (now : Z)
  : handler collection serial :=
  object_id <~ validate_object_id id;;
  existing_todo <~ find_one (by_id object_id);;
  match existing_todo with
  | None => not_found id
  | Some _ =>
      let update_data :=
        List.filter (λ kv, is_not_None kv.2) (TodoUpdate_model_dump todo) in
      match update_data with
      | [] => raise (HTTPException HTTP_400_BAD_REQUEST "No valid fields to update")
      | _ =>
          let update_data := update_data ++ [("updated_at", VDate now)] in
          update_one (by_id object_id) update_data;;;
          updated_todo <~ find_one (by_id object_id);;
          match updated_todo with
          | None => raise TypeError
          | Some updated_todo => ret (individual_serial updated_todo)
          end
      end
  end.

(** Python's truth value of a field value, for [not todo.get("complete", False)]. *)
Definition truthy (v : value) : bool :=
  match v with
  | VStr s => negb (bool_decide (s = ""))
  | VBool b => b
  | VDate _ => true
  | VNull => false
  end.

Definition toggle_todo (id : string) (now : Z) : handler collection serial :=
  object_id <~ validate_object_id id;;
  todo <~ find_one (by_id object_id);;
  match todo with
  | None => not_found id
  | Some todo =>
      let new_status := negb (truthy (default (VBool false) (fields todo !! "complete"))) in
      update_one (by_id object_id)
        [("complete", VBool new_status); ("updated_at", VDate now)];;;
      updated_todo <~ find_one (by_id object_id);;
      match updated_todo with
      | None => raise TypeError
      | Some updated_todo => ret (individual_serial updated_todo)
      end
  end.

Definition delete_todo (id : string) : handler collection unit :=
  object_id <~ validate_object_id id;;
  deleted_count <~ delete_one (by_id object_id);;
  if deleted_count =? 0 then not_found id else ret ().

Definition completed_query : query := by_fields {["complete" := VBool true]}.

(** The body is a JSON object, kept as its list of members. *)
Definition delete_completed_todos : handler collection (list (string * string)) :=
  deleted_count <~ delete_many completed_query;;
  ret [("message", "Deleted " +:+ pretty deleted_count +:+ " completed todos")].

Record stats := Stats {
  total : Z;
  completed : Z;
  pending : Z;
  completion_rate : PyNum.number;
}.

Definition get_todo_stats : handler collection stats :=
  total <~ count_documents (by_fields ∅);;
  completed <~ count_documents completed_query;;
  let pending := total - completed in
  ret {| total := total;
         completed := completed;
         pending := pending;
         completion_rate :=
           if 0 <? total
           then PyNum.PyFloat
                  (PyNum.round (PrimFloat.mul (PyNum.truediv completed total)
                                              (PyNum.float_of_int 100)) 2)
           else PyNum.PyInt 0 |}.

(** *** The listing and the declared bounds (routes/route.py,
    schema/schemas.py, models/todos.py) *)

Definition list_serial (todos : list document) : list serial :=
  individual_serial <$> todos.

(** [cursor.limit(limit)]: the cursor reads a limit of 0 as no limit. *)
Definition cursor_limit (limit : nat) (l : list document) : list document :=
  match limit with
  | O => l
  | S _ => take limit l
  end.

(** The documents that [collection.find(query).skip(skip).limit(limit)]
    yields when it is read to its end. *)
Definition find (q : query) (skip limit : nat) (l : list document) : list document :=
  cursor_limit limit (drop skip (filter (Matches q) l)).

(** The answer of [get_todos], as a function of the documents of the
    collection, which it only reads.  The route declares [skip >= 0] and
    [1 <= limit <= 1000]. *)
Definition get_todos (skip limit : nat) (complete : option bool) (l : list document)
  : list serial :=
  let query :=
    match complete with
    | Some c => by_fields {["complete" := VBool c]}
    | None => by_fields ∅
    end in
  list_serial (find query skip limit l).

(** [Field(min_length=lo, max_length=hi)] on a string. *)
Definition within (lo hi : nat) (s : string) : bool :=
  (lo <=? String.length s)%nat && (String.length s <=? hi)%nat.

(** A field of an update model, declared [Optional]: the bounds are checked
    on a value that is given. *)
Definition optional {A} (check : A → bool) (x : sent A) : bool :=
  match x with
  | Given a => check a
  | Omitted | Null => true
  end.

Definition TodoCreate_valid (t : TodoCreate) : bool :=
  within 1 100 (tc_name t) && within 1 500 (tc_description t).

Definition TodoUpdate_valid (t : TodoUpdate) : bool :=
  optional (within 1 100) (tu_name t) && optional (within 1 500) (tu_description t).

Definition datetime_or_None (v : value) : bool :=
  match v with
  | VDate _ | VNull => true
  | _ => false
  end.

(** The record has the types that [TodoResponse] declares, as they are
    (the conversions pydantic makes between types are left out), and is
    within its bounds. *)
Definition TodoResponse_conforms (s : serial) : bool :=
  match s_name s, s_description s, s_complete s with
  | VStr name, VStr description, VBool _ =>
      within 1 100 name && within 1 500 description
      && datetime_or_None (s_created_at s) && datetime_or_None (s_updated_at s)
  | _, _, _ => false
  end.

End Routes.
End Todo.

(** ** The book schemas (SQL/schemas.py, and the models of basics.py) *)

Module Books.

(** A book as the handlers hold it, [Id] being the type of its key.  [None]
    is Python's [None] (a NULL column): the declared types of the attributes
    exclude it for [title], [author] and [rating], but assignment does not
    check them. *)
Record Book (Id : Type) := mkBook {
  id : Id;
  title : option string;
  author : option string;
  description : option string;
  rating : option Z;
}.
Arguments mkBook {Id} _ _ _ _ _.
Arguments id {Id} _.
Arguments title {Id} _.
Arguments author {Id} _.
Arguments description {Id} _.
Arguments rating {Id} _.

#[export] Instance Book_eq_dec `{EqDecision Id} : EqDecision (Book Id).
Proof. solve_decision. Defined.

Record BookUpdate := {
  bu_title : sent string;
  bu_author : sent string;
  bu_description : sent string;
  bu_rating : sent Z;
}.

(** A pair of [model_dump(exclude_unset=True).items()]: the name of a field
    the client sent, and its value ([None] when sent as [null]). *)
Inductive item :=
  | title_item (v : option string)
  | author_item (v : option string)
  | description_item (v : option string)
  | rating_item (v : option Z).

Definition dumped {A} (mk : option A → item) (x : sent A) : list item :=
  match x with
  | Omitted => []
  | Null => [mk None]
  | Given a => [mk (Some a)]
  end.

Definition model_dump_exclude_unset (b : BookUpdate) : list item :=
  dumped title_item (bu_title b) ++ dumped author_item (bu_author b)
  ++ dumped description_item (bu_description b) ++ dumped rating_item (bu_rating b).

Definition setattr {Id} (book : Book Id) (it : item) : Book Id :=
  match it with
  | title_item v => mkBook (id book) v (author book) (description book) (rating book)
  | author_item v => mkBook (id book) (title book) v (description book) (rating book)
  | description_item v => mkBook (id book) (title book) (author book) v (rating book)
  | rating_item v => mkBook (id book) (title book) (author book) (description book) v
  end.

End Books.

(** ** The book service over SQLAlchemy (SQL/main.py) *)

Module Relational.
Import Books.

(** The table [books], its rows in rowid order. *)
Abbreviation table := (list (Book Z)).

(** The integers that SQLite stores and that its driver binds as the
    parameter of a statement: those of 64 bits.  The handlers declare their
    parameters as [int], without bounds; on an integer outside these the
    driver raises [OverflowError] before the statement is run, which the
    definitions below leave out: they say what the handlers do on integers
    of 64 bits. *)
Definition int64 (z : Z) : Prop := - 2 ^ 63 ≤ z < 2 ^ 63.

(** SQL/models.py: the NOT NULL columns and the CHECK constraint. *)
Definition valid_rating (b : Book Z) : bool :=
  match rating b with
  | Some r => (0 <=? r) && (r <=? 100)
  | None => false
  end.

Definition constraints (b : Book Z) : bool :=
  bool_decide (title b ≠ None) && bool_decide (author b ≠ None) && valid_rating b.

(** [db.query(Book).filter(Book.id == book_id).first()], with the position
    of the row, for a key of 64 bits ([int64]). *)
Definition first_by_id (book_id : Z) : handler table (option (nat * Book Z)) :=
  λ db, (Return (list_find (λ b, id b = book_id) db), db).

(** [db.commit()] after the attributes of the row at position [i] were
    assigned: an UPDATE is sent when the row changed, and fails on a
    constraint; the session is then closed without the change. *)
Definition commit (i : nat) (old new : Book Z) : handler table unit :=
  λ db, if decide (new = old) then (Return (), db)
        else if constraints new then (Return (), <[i := new]> db)
        else (Raise IntegrityError, db).

(** [db.refresh(book)]: the row is read again. *)
Definition refresh (i : nat) : handler table (Book Z) :=
  λ db, match db !! i with
        | Some b => (Return b, db)
        | None => (Raise InvalidRequestError, db)
        end.

Definition not_found {A} (book_id : Z) : handler table A :=
  raise (HTTPException HTTP_404_NOT_FOUND
           ("Book with ID " +:+ pretty book_id +:+ " not found")).

Definition get_book (book_id : Z) : handler table (Book Z) :=
  book <~ first_by_id book_id;;
  match book with
  | None => not_found book_id
  | Some (_, book) => ret book
  end.

Definition update_book (book_id : Z) (book_data : BookUpdate) : handler table (Book Z) :=
  book <~ first_by_id book_id;;
  match book with
  | None => not_found book_id
  | Some (i, book) =>
      let update_data := model_dump_exclude_unset book_data in
      let book' := foldl setattr book update_data in
      commit i book book';;;
      refresh i
  end.

Definition delete_all_books : handler table (list (string * string)) :=
  λ db,
    let count := Z.of_nat (length db) in
    (Return [("message", "Successfully deleted " +:+ pretty count +:+ " book(s)")], []).

(** *** Search *)

(** SQLite's [lower()] and the case folding of its LIKE: the 26 ASCII
    letters.  A text is the sequence of its characters, each one an [ascii]. *)
Definition lower_ascii (c : ascii) : ascii :=
  let n := N_of_ascii c in
  if ((65 <=? n) && (n <=? 90))%N then ascii_of_N (n + 32) else c.

Fixpoint lower (s : string) : string :=
  match s with
  | EmptyString => EmptyString
  | String c s' => String (lower_ascii c) (lower s')
  end.

(** [text LIKE pattern]: [%] stands for any run of characters, [_] for any
    one character, no escape character being declared. *)
Fixpoint like (pattern text : string) : bool :=
  match pattern with
  | EmptyString => bool_decide (text = EmptyString)
  | String p pattern' =>
      if bool_decide (p = "%"%char) then
        (fix any_run (t : string) : bool :=
           like pattern' t ||
           match t with
           | EmptyString => false
           | String _ t' => any_run t'
           end) text
      else
        match text with
        | EmptyString => false
        | String c text' =>
            (bool_decide (p = "_"%char) || bool_decide (lower_ascii p = lower_ascii c))
            && like pattern' text'
        end
  end.

(** [column.ilike(pattern)] as SQLAlchemy renders it for SQLite:
    [lower(column) LIKE lower(pattern)]; NULL is not a match. *)
Definition ilike (column : option string) (pattern : string) : bool :=
  match column with
  | Some text => like (lower pattern) (lower text)
  | None => false
  end.

(** [Book.rating >= min_rating], for a [min_rating] of 64 bits ([int64]). *)
Definition rating_ge (column : option Z) (min_rating : Z) : bool :=
  match column with
  | Some r => min_rating <=? r
  | None => false
  end.

(** The truth value of an optional string parameter: [None] and the empty
    string are false. *)
Definition nonempty (p : option string) : option string :=
  match p with
  | Some "" => None
  | other => other
  end.

Definition search_books (title author : option string) (min_rating : option Z)
  : handler table (list (Book Z)) :=
  λ db,
    let query := db in
    let query :=
      match nonempty title with
      | Some t => List.filter (λ b, ilike (Books.title b) ("%" +:+ t +:+ "%")) query
      | None => query
      end in
    let query :=
      match nonempty author with
      | Some a => List.filter (λ b, ilike (Books.author b) ("%" +:+ a +:+ "%")) query
      | None => query
      end in
    let query :=
      match min_rating with
      | Some r => List.filter (λ b, rating_ge (rating b) r) query
      | None => query
      end in
    (Return query, db).

(** *** Listing and creating (SQL/main.py), the bounds of SQL/schemas.py *)

(** [OFFSET skip]: SQLite reads a negative offset as 0. *)
Definition sql_offset (skip : Z) (rows : table) : table :=
  drop (Z.to_nat skip) rows.

(** [LIMIT limit]: SQLite reads a negative limit as no limit. *)
Definition sql_limit (limit : Z) (rows : table) : table :=
  if limit <? 0 then rows else take (Z.to_nat limit) rows.

Definition get_all_books (skip limit : Z) : handler table (list (Book Z)) :=
  λ db, (Return (sql_limit limit (sql_offset skip db)), db).

Record BookCreate := {
  bc_title : string;
  bc_author : string;
  bc_description : option string;
  bc_rating : Z;
}.

(** The key SQLite gives a new row of an INTEGER PRIMARY KEY table: 1 in an
    empty table, else one more than the largest key in use (below the
    largest 64-bit integer). *)
Definition next_rowid (db : table) : Z :=
  match id <$> db with
  | [] => 1
  | k :: ks => 1 + foldl Z.max k ks
  end.

(** [db.add(new_book); db.commit()]: the INSERT fails on a constraint. *)
Definition add_commit (new_book : Book Z) : handler table nat :=
  λ db, if constraints new_book then (Return (length db), db ++ [new_book])
        else (Raise IntegrityError, db).

Definition create_book (book_data : BookCreate) : handler table (Book Z) :=
  λ db,
    let new_book := mkBook (next_rowid db) (Some (bc_title book_data))
                      (Some (bc_author book_data)) (bc_description book_data)
                      (Some (bc_rating book_data)) in
    (i <~ add_commit new_book;; refresh i) db.

Definition length_within (lo hi : nat) (s : string) : bool :=
  (lo <=? String.length s)%nat && (String.length s <=? hi)%nat.

Definition rating_within (r : Z) : bool := (0 <=? r) && (r <=? 100).


Definition BookCreate_valid (b : BookCreate) : bool :=
  length_within 1 200 (bc_title b) && length_within 1 100 (bc_author b)
  && match bc_description b with
     | Some d => length_within 0 500 d
     | None => true
     end
  && rating_within (bc_rating b).


(** *** Deleting one book (SQL/main.py, SQL/schemas.py) *)

(** [DeleteResponse]: [deleted_title] is declared [str]. *)
Record DeleteResponse := {
  message : string;
  deleted_id : Z;
  deleted_title : string;
}.

(** What [delete_book] can raise: the errors of the other handlers, and
    pydantic's [ValidationError] when [DeleteResponse] is given a title that
    is no string. *)
Inductive delete_book_error :=
  | Raised (e : error)
  | ValidationError.

Definition lifted {A} (r : outcome A * table) : (A + delete_book_error) * table :=
  match r with
  | (Return a, db) => (inl a, db)
  | (Raise e, db) => (inr (Raised e), db)
  end.

(** [db.delete(book); db.commit()]: DELETE FROM books WHERE id = the key of
    the row. *)
Definition delete_commit (book : Book Z) (db : table) : table :=
  filter (λ b, id b ≠ id book) db.

Definition delete_book (book_id : Z) (db : table)
  : (DeleteResponse + delete_book_error) * table :=
  match first_by_id book_id db with
  | (Return None, db) => lifted (not_found book_id db)
  | (Return (Some (_, book)), db) =>
      let deleted_title := title book in
      let db := delete_commit book db in
      match deleted_title with
      | Some deleted_title =>
          (inl {| message := "Book deleted successfully";
                  deleted_id := book_id;
                  deleted_title := deleted_title |}, db)
      | None => (inr ValidationError, db)
      end
  | (Raise e, db) => (inr (Raised e), db)
  end.

End Relational.

(** ** Search, as the specification words it *)

Module SearchSpec.
Import Books.

(** [needle] occurs in [hay] as a run of consecutive characters. *)
Fixpoint occurs_in (needle hay : string) : bool :=
  String.prefix needle hay ||
  match hay with
  | EmptyString => false
  | String _ hay' => occurs_in needle hay'
  end.

(** Substring match without regard to case. *)
Definition substring_match (param : string) (column : option string) : bool :=
  match column with
  | Some text => occurs_in (Relational.lower param) (Relational.lower text)
  | None => false
  end.

(** A book satisfies every predicate whose parameter is provided. *)
Definition satisfies (title author : option string) (min_rating : option Z)
    (b : Book Z) : Prop :=
  (∀ t, title = Some t → substring_match t (Books.title b) = true) ∧
  (∀ a, author = Some a → substring_match a (Books.author b) = true) ∧
  (∀ r, min_rating = Some r → ∃ x, rating b = Some x ∧ r ≤ x).

(** No character of the parameter is one of LIKE's wildcards. *)
Fixpoint wildcard_free (param : string) : Prop :=
  match param with
  | EmptyString => True
  | String c rest => c ≠ "%"%char ∧ c ≠ "_"%char ∧ wildcard_free rest
  end.

End SearchSpec.

(** ** Rounding to decimal places, as the specification words it *)

Module RoundingSpec.

(** [r] is [x] rounded to [ndigits] decimal places.  A finite [x] that is
    no integer has the exact value [m * 2^e], with its sign, for a mantissa
    [m] and an exponent [e < 0]; [r] is then, with the sign of [x], the
    float nearest to the decimal [k / 10^ndigits], for an integer [k]
    nearest to [m * 2^e * 10^ndigits]: [|k - m * 2^e * 10^ndigits| <= 1/2],
    written without fractions.  A float that is an integer, a zero, an
    infinity or no number has nothing to round. *)
Definition rounded_to (ndigits : Z) (x r : float) : Prop :=
  match Prim2SF x with
  | S754_finite s m e =>
      if 0 <=? e then r = x
      else ∃ k : Z,
             2 * Z.abs (k * 2 ^ (- e) - Z.pos m * 10 ^ ndigits) ≤ 2 ^ (- e) ∧
             r = (let q := PrimFloat.div (PyNum.float_of_int k)
                             (PyNum.float_of_int (10 ^ ndigits)) in
                  if s then PrimFloat.opp q else q)
  | _ => r = x
  end.

End RoundingSpec.

(** ** The book service over the list BOOKS (basics.py) *)

(** The part of the [uuid] package the handlers use: the type of the
    identifiers, their comparison and [str]. *)
Class Uuid := {
  UUID : Type;
  UUID_eq_dec :: EqDecision UUID;
  UUID_str : UUID → string;
}.

Module InMemory.
Import Books.
Section Handlers.
Context `{Uuid}.

Abbreviation BOOKS := (list (Book UUID)).

Record BookCreate := {
  bc_title : string;
  bc_author : string;
  bc_description : string;
  bc_rating : Z;
}.

Fixpoint find_from (index : nat) (book_id : UUID) (books : BOOKS)
  : option (nat * Book UUID) :=
  match books with
  | [] => None
  | book :: rest =>
      if decide (id book = book_id) then Some (index, book)
      else find_from (S index) book_id rest
  end.

Definition find_book_by_id (book_id : UUID) : handler BOOKS (option (nat * Book UUID)) :=
  λ books, (Return (find_from 0 book_id books), books).

Definition not_found {A} (book_id : UUID) : handler BOOKS A :=
  raise (HTTPException HTTP_404_NOT_FOUND
           ("Book with ID " +:+ UUID_str book_id +:+ " not found")).

Definition get_book (book_id : UUID) : handler BOOKS (Book UUID) :=
  result <~ find_book_by_id book_id;;
  match result with
  | None => not_found book_id
  | Some (_, book) => ret book
  end.

(** [uuid] is the value [uuid4()] draws. *)
Definition create_book (uuid : UUID) (book_data : BookCreate) : handler BOOKS (Book UUID) :=
  λ books,
    let new_book := mkBook uuid (Some (bc_title book_data)) (Some (bc_author book_data))
                      (Some (bc_description book_data)) (Some (bc_rating book_data)) in
    (Return new_book, books ++ [new_book]).

Definition update_book (book_id : UUID) (book_data : BookUpdate) : handler BOOKS (Book UUID) :=
  result <~ find_book_by_id book_id;;
  match result with
  | None => not_found book_id
  | Some (index, existing_book) =>
      let update_data := model_dump_exclude_unset book_data in
      let updated_book := foldl setattr existing_book update_data in
      λ books, (Return updated_book, <[index := updated_book]> books)
  end.

(** The body of the answer of [delete_book]: the message, and the id and
    title of the deleted book. *)
Record deleted := Deleted {
  message : string;
  deleted_id : string;
  deleted_title : option string;
}.

Definition delete_book (book_id : UUID) : handler BOOKS deleted :=
  result <~ find_book_by_id book_id;;
  match result with
  | None => not_found book_id
  | Some (index, deleted_book) =>
      λ books, (Return (Deleted "Book deleted successfully" (UUID_str (id deleted_book))
                          (title deleted_book)),
                delete index books)
  end.

Definition delete_all_books : handler BOOKS (list (string * string)) :=
  λ books,
    let count := Z.of_nat (length books) in
    (Return [("message", "Successfully deleted " +:+ pretty count +:+ " book(s)")], []).

Definition get_all_books : handler BOOKS BOOKS :=
  λ books, (Return books, books).

End Handlers.
End InMemory.

(** ** Sample instances, on which the handlers can be evaluated *)

Module Samples.

Definition is_hex (c : ascii) : bool :=
  let n := N_of_ascii c in
  ((48 <=? n) && (n <=? 57) || (97 <=? n) && (n <=? 102) || (65 <=? n) && (n <=? 70))%N.

(** Identifiers written as 24 hexadecimal digits. *)
Definition hex24 (s : string) : option string :=
  if bool_decide (String.length s = 24%nat) && forallb is_hex (String.list_ascii_of_string s)
  then Some (Relational.lower s) else None.

Definition bson : Bson :=
  {| ObjId := string; ObjectId := hex24; ObjId_str := λ oid, oid |}.

Definition uuid : Uuid :=
  {| UUID := N; UUID_str := pretty |}.

Definition id_a : string := "65f0a1b2c3d4e5f6a7b8c9d0".
Definition id_b : string := "65f0a1b2c3d4e5f6a7b8c9d1".

Definition todo_doc (id name : string) (complete : bool) (created updated : Z)
  : Todo.document (H := bson) :=
  Todo.Document (H := bson) id
    (<["name" := Todo.VStr name]>
       (<["description" := Todo.VStr "to do"]>
          (<["complete" := Todo.VBool complete]>
             (<["created_at" := Todo.VDate created]>
                (<["updated_at" := Todo.VDate updated]> ∅))))).

(** A collection of two todos, the second one completed. *)
Definition two_todos : Todo.collection (H := bson) :=
  Todo.Collection (H := bson)
    [todo_doc id_a "write" false 10 10; todo_doc id_b "read" true 20 30] [].

(** A collection of three todos, one of them completed. *)
Definition three_todos : Todo.collection (H := bson) :=
  Todo.Collection (H := bson)
    [todo_doc id_a "write" false 10 10; todo_doc id_b "read" true 20 30;
     todo_doc "65f0a1b2c3d4e5f6a7b8c9d3" "plan" false 40 40] [].

Definition dune : Books.Book Z :=
  Books.mkBook 1 (Some "Dune") (Some "Herbert") None (Some 90).

Definition emma : Books.Book Z :=
  Books.mkBook 2 (Some "Emma") (Some "Austen") (Some "A novel") (Some 70).

Definition shelf : list (Books.Book Z) := [dune; emma].

Definition dune_in_memory : Books.Book (UUID (Uuid := uuid)) :=
  Books.mkBook 7%N (Some "Dune") (Some "Herbert") (Some "Sand") (Some 90).

End Samples.

(** * Rounding *)

(** [nearest_even n d] is an integer nearest to [n / d]. *)
Lemma nearest_even_is_nearest (n d : Z) :
  0 < d → 2 * Z.abs (PyNum.nearest_even n d * d - n) ≤ d.
Proof.
  intros Hd. unfold PyNum.nearest_even.
  pose proof (Z.div_mod n d ltac:(lia)) as Hn.
  pose proof (Z.mod_pos_bound n d Hd) as Hr.
  repeat case_match; rewrite ?Z.ltb_lt, ?Z.ltb_ge in *; lia.
Qed.

(** [round] rounds to decimal places: what it answers is, at every float,
    what the specification calls the float rounded to [ndigits] places. *)
Lemma round_is_rounded_to (x : float) (ndigits : Z) :
  RoundingSpec.rounded_to ndigits x (PyNum.round x ndigits).
Proof.
  unfold RoundingSpec.rounded_to, PyNum.round.
  destruct (Prim2SF x) as [| | | s m e]; try reflexivity.
  destruct (0 <=? e) eqn:He; [reflexivity |].
  apply Z.leb_gt in He.
  exists (PyNum.nearest_even (Z.pos m * 10 ^ ndigits) (2 ^ (- e))).
  split; [| reflexivity].
  apply nearest_even_is_nearest. apply Z.pow_pos_nonneg; lia.
Qed.

(** * Lists keyed by a unique identifier *)

Lemma filter_all {A} (P : A → Prop) `{∀ x, Decision (P x)} (l : list A) :
  Forall P l → filter P l = l.
Proof.
  induction 1 as [| x l Hx _ IH]; [done |].
  rewrite filter_cons_True by done. by rewrite IH.
Qed.

Lemma filter_none {A} (P : A → Prop) `{∀ x, Decision (P x)} (l : list A) :
  Forall (λ x, ¬ P x) l → filter P l = [].
Proof.
  induction 1 as [| x l Hx _ IH]; [done |].
  by rewrite filter_cons_False.
Qed.

Lemma length_filter_complement {A} (P : A → Prop) `{∀ x, Decision (P x)} (l : list A) :
  (length (filter P l) + length (filter (λ x, ¬ P x) l))%nat = length l.
Proof. by rewrite <- length_app, filter_app_complement. Qed.

Section UniqueKeys.
Context {A B : Type} `{EqDecision B} (key : A → B).

(** When the keys are pairwise distinct, removing the first element with a
    key removes every element with that key. *)
Lemma delete_first_by_key (o : B) (l : list A) (i : nat) (x : A) :
  list_find (λ y, key y = o) l = Some (i, x) →
  NoDup (key <$> l) →
  delete i l = filter (λ y, key y ≠ o) l.
Proof.
  revert i. induction l as [| a l IH]; intros i Hf Hnd; [done |].
  rewrite fmap_cons in Hnd. apply NoDup_cons in Hnd as [Ha Hnd].
  cbn in Hf. case_decide as Hk.
  - injection Hf as <- <-.
    rewrite filter_cons_False by (intros Hn; by apply Hn).
    cbn. symmetry. apply filter_all.
    apply Forall_forall. intros y Hy Hky. apply Ha.
    rewrite Hk, <- Hky. by apply list_elem_of_fmap_2.
  - destruct (list_find _ l) as [[j y] |] eqn:Hl; [| done].
    injection Hf as <- <-.
    rewrite filter_cons_True by done. cbn. f_equal. by apply IH.
Qed.

Lemma find_after_delete_by_key (o : B) (l : list A) (i : nat) (x : A) :
  list_find (λ y, key y = o) l = Some (i, x) →
  NoDup (key <$> l) →
  list_find (λ y, key y = o) (delete i l) = None.
Proof.
  intros Hf Hnd. rewrite (delete_first_by_key o l i x Hf Hnd).
  apply list_find_None, Forall_forall. intros y Hy.
  by apply list_elem_of_filter in Hy as [Hy _].
Qed.

Lemma length_delete_found (P : A → Prop) `{∀ y, Decision (P y)} (l : list A) (i : nat) (x : A) :
  list_find P l = Some (i, x) → S (length (delete i l)) = length l.
Proof.
  intros Hf. apply list_find_Some in Hf as (Hl & _ & _).
  rewrite length_delete by (by eexists). apply lookup_lt_Some in Hl. lia.
Qed.

End UniqueKeys.

(** * Properties of the todo service *)

Module TodoFacts.
Import Todo.
Section Facts.
Context `{Bson}.

Lemma Matches_by_id (oid : ObjId) (d : document) :
  Matches (by_id oid) d ↔ _id d = oid.
Proof.
  unfold Matches, by_id; simpl. split.
  - intros [Hid _]. exact Hid.
  - intros Hid. split; [exact Hid | apply map_Forall_empty].
Qed.

Lemma Matches_all (d : document) : Matches (by_fields ∅) d.
Proof. split; [exact I | apply map_Forall_empty]. Qed.

Lemma Matches_completed (d : document) :
  Matches completed_query d ↔ fields d !! "complete" = Some (VBool true).
Proof.
  unfold Matches, completed_query, by_fields; simpl.
  rewrite map_Forall_singleton. tauto.
Qed.

(** The document found by its identifier carries that identifier. *)
Lemma found_by_id (oid : ObjId) (l : list document) (i : nat) (d : document) :
  list_find (Matches (by_id oid)) l = Some (i, d) → _id d = oid ∧ l !! i = Some d.
Proof.
  intros Hf. apply list_find_Some in Hf as (Hl & Hm & _).
  apply Matches_by_id in Hm. done.
Qed.

(** Writing, at the position of the first match, a document with the same
    identifier leaves it the first match. *)
Lemma find_by_id_insert (oid : ObjId) (l : list document) (i : nat) (d d' : document) :
  list_find (Matches (by_id oid)) l = Some (i, d) →
  _id d' = oid →
  list_find (Matches (by_id oid)) (<[i := d']> l) = Some (i, d').
Proof.
  intros Hf Hid. apply list_find_Some in Hf as (Hl & Hm & Hbefore).
  apply list_find_Some. split; [| split].
  - apply list_lookup_insert_eq. by eapply lookup_lt_Some.
  - by apply (proj2 (Matches_by_id oid d')).
  - intros j y Hj Hlt. rewrite list_lookup_insert_ne in Hj by lia.
    by eapply Hbefore.
Qed.

Lemma find_by_id_None (oid : ObjId) (l : list document) :
  list_find (Matches (by_id oid)) l = None ↔ ∀ d, d ∈ l → _id d ≠ oid.
Proof.
  rewrite list_find_None, Forall_forall.
  split; intros Hn d Hd; specialize (Hn d Hd); by rewrite Matches_by_id in *.
Qed.

(** What [toggle_todo] does on a document it finds. *)
Definition toggled (now : Z) (d : document) : document :=
  Document (_id d)
    (<["updated_at" := VDate now]>
       (<["complete" := VBool (negb (truthy (default (VBool false) (fields d !! "complete"))))]>
          (fields d))).

Lemma toggle_todo_found (id : string) (now : Z) (w : collection)
    (oid : ObjId) (i : nat) (d : document) :
  ObjectId id = Some oid →
  list_find (Matches (by_id oid)) (docs w) = Some (i, d) →
  toggle_todo id now w =
    (Return (individual_serial (toggled now d)),
     Collection (<[i := toggled now d]> (docs w))
                (calls w ++ [call_find_one; call_update_one; call_find_one])).
Proof.
  intros Hoid Hf.
  unfold toggle_todo, bind, validate_object_id, find_one, update_one, ret, logged.
  rewrite Hoid. simpl. rewrite Hf. simpl. rewrite Hf. simpl.
  destruct (found_by_id _ _ _ _ Hf) as [Hid _].
  pose proof (find_by_id_insert oid (docs w) i d (toggled now d) Hf Hid) as Hf'.
  unfold toggled in *. rewrite Hf'. simpl. by rewrite <- !app_assoc.
Qed.

Lemma toggle_todo_missing (id : string) (now : Z) (w : collection) (oid : ObjId) :
  ObjectId id = Some oid →
  list_find (Matches (by_id oid)) (docs w) = None →
  toggle_todo id now w =
    (Raise (HTTPException 404 ("Todo with ID " +:+ id +:+ " not found")),
     Collection (docs w) (calls w ++ [call_find_one])).
Proof.
  intros Hoid Hf.
  unfold toggle_todo, bind, validate_object_id, find_one, ret, logged, not_found, raise.
  rewrite Hoid. simpl. by rewrite Hf.
Qed.

Lemma toggled_lookup (now : Z) (d : document) (k : string) :
  fields (toggled now d) !! k =
    if decide (k = "updated_at") then Some (VDate now)
    else if decide (k = "complete")
         then Some (VBool (negb (truthy (default (VBool false) (fields d !! "complete")))))
         else fields d !! k.
Proof.
  unfold toggled; simpl.
  repeat case_decide; subst; simplify_map_eq; done.
Qed.

(** C3. On an identifier that is well formed and found, [toggle_todo]
    answers with the document in which [complete] is negated and
    [updated_at] is the reading of the clock, every other field and every
    other document being kept; a second toggle gives [complete] its first
    value again.  On a well-formed identifier that no document carries, it
    raises 404 and the documents are unchanged. *)
Theorem toggle_is_an_involution (id : string) (t1 t2 : Z) (w : collection) (oid : ObjId) :
  ObjectId id = Some oid →
  (∀ i d b,
     list_find (Matches (by_id oid)) (docs w) = Some (i, d) →
     s_complete (individual_serial d) = VBool b →
     ∃ d1 d2 w1 w2,
       toggle_todo id t1 w = (Return (individual_serial d1), w1) ∧
       toggle_todo id t2 w1 = (Return (individual_serial d2), w2) ∧
       docs w1 = <[i := d1]> (docs w) ∧
       docs w2 = <[i := d2]> (docs w) ∧
       _id d1 = _id d ∧ _id d2 = _id d ∧
       fields d1 !! "complete" = Some (VBool (negb b)) ∧
       fields d1 !! "updated_at" = Some (VDate t1) ∧
       fields d2 !! "complete" = Some (VBool b) ∧
       fields d2 !! "updated_at" = Some (VDate t2) ∧
       s_complete (individual_serial d2) = s_complete (individual_serial d) ∧
       (∀ k, k ≠ "complete" → k ≠ "updated_at" →
             fields d1 !! k = fields d !! k ∧ fields d2 !! k = fields d !! k)) ∧
  (list_find (Matches (by_id oid)) (docs w) = None →
     ∃ w', toggle_todo id t1 w =
             (Raise (HTTPException 404 ("Todo with ID " +:+ id +:+ " not found")), w') ∧
           docs w' = docs w).
Proof.
  intros Hoid. split.
  - intros i d b Hf Hb.
    destruct (found_by_id _ _ _ _ Hf) as [Hid Hl].
    pose proof (find_by_id_insert oid (docs w) i d (toggled t1 d) Hf Hid) as Hf1.
    set (w1 := Collection (<[i := toggled t1 d]> (docs w))
                 (calls w ++ [call_find_one; call_update_one; call_find_one])).
    exists (toggled t1 d), (toggled t2 (toggled t1 d)), w1.
    eexists.
    split; [by apply (toggle_todo_found id t1 w oid i d) |].
    split; [by apply (toggle_todo_found id t2 w1 oid i (toggled t1 d)) |].
    simpl in Hb.
    assert (Hc1 : fields (toggled t1 d) !! "complete" = Some (VBool (negb b))).
    { rewrite toggled_lookup. repeat case_decide; try done. by rewrite Hb. }
    assert (Hc2 : fields (toggled t2 (toggled t1 d)) !! "complete" = Some (VBool b)).
    { rewrite toggled_lookup. repeat case_decide; try done.
      rewrite Hc1. simpl. by rewrite negb_involutive. }
    split; [reflexivity |].
    split; [subst w1; cbn [docs]; by rewrite list_insert_insert_eq |].
    split; [reflexivity |]. split; [reflexivity |].
    split; [exact Hc1 |].
    split; [rewrite toggled_lookup; by repeat case_decide |].
    split; [exact Hc2 |].
    split; [rewrite toggled_lookup; by repeat case_decide |].
    split; [cbn [individual_serial s_complete]; by rewrite Hc2, Hb |].
    intros k Hk1 Hk2. rewrite !toggled_lookup. by repeat case_decide.
  - intros Hf. eexists. split; [by apply (toggle_todo_missing id t1 w oid) |]. done.
Qed.

(** *** [update_todo] *)

(** The update document [update_todo] builds before the time stamp is added. *)
Definition update_data (todo : TodoUpdate) : list (string * value) :=
  List.filter (λ kv, is_not_None kv.2) (TodoUpdate_model_dump todo).

(** What [update_todo] writes in place of a document it finds. *)
Definition updated (todo : TodoUpdate) (now : Z) (d : document) : document :=
  Document (_id d)
    (set_fields (update_data todo ++ [("updated_at", VDate now)]) (fields d)).

Lemma update_todo_unfold (id : string) (todo : TodoUpdate) (now : Z) (w : collection) :
  update_todo id todo now w =
    match ObjectId id with
    | None => (Raise (HTTPException 400 ("Invalid ID format: " +:+ id)), w)
    | Some oid =>
        match list_find (Matches (by_id oid)) (docs w) with
        | None =>
            (Raise (HTTPException 404 ("Todo with ID " +:+ id +:+ " not found")),
             Collection (docs w) (calls w ++ [call_find_one]))
        | Some (i, d) =>
            match update_data todo with
            | [] =>
                (Raise (HTTPException 400 "No valid fields to update"),
                 Collection (docs w) (calls w ++ [call_find_one]))
            | _ =>
                (Return (individual_serial (updated todo now d)),
                 Collection (<[i := updated todo now d]> (docs w))
                   (calls w ++ [call_find_one; call_update_one; call_find_one]))
            end
        end
    end.
Proof.
  unfold update_todo, bind, validate_object_id, find_one, ret, raise, logged, not_found.
  destruct (ObjectId id) as [oid |] eqn:Hoid; [| reflexivity]. cbn [docs calls fst snd].
  destruct (list_find (Matches (by_id oid)) (docs w)) as [[i d] |] eqn:Hf;
    [| done].
  cbn [fmap option_fmap option_map snd].
  fold (update_data todo).
  destruct (update_data todo) as [| kv upd] eqn:Hupd; [reflexivity |].
  unfold update_one, logged. cbn [docs calls]. rewrite Hf. cbn [docs calls].
  destruct (found_by_id _ _ _ _ Hf) as [Hid _].
  pose proof (find_by_id_insert oid (docs w) i d (updated todo now d) Hf Hid) as Hf'.
  unfold updated in *. rewrite Hupd in Hf' |- *. rewrite Hf'.
  cbn [fmap option_fmap option_map snd]. by rewrite <- !app_assoc.
Qed.

(** A field sent as [null] and a field left out give the same dictionary. *)
Definition as_omitted {A} (x : sent A) : sent A :=
  match x with
  | Null => Omitted
  | other => other
  end.

Definition without_nulls (todo : TodoUpdate) : TodoUpdate :=
  {| tu_name := as_omitted (tu_name todo);
     tu_description := as_omitted (tu_description todo);
     tu_complete := as_omitted (tu_complete todo) |}.

Definition absent {A} (x : sent A) : Prop :=
  match x with
  | Given _ => False
  | Omitted | Null => True
  end.

Lemma model_dump_without_nulls (todo : TodoUpdate) :
  TodoUpdate_model_dump (without_nulls todo) = TodoUpdate_model_dump todo.
Proof. by destruct todo as [[] [] []]. Qed.

Lemma update_data_empty (todo : TodoUpdate) :
  update_data todo = [] ↔
  absent (tu_name todo) ∧ absent (tu_description todo) ∧ absent (tu_complete todo).
Proof.
  destruct todo as [[| | n] [| | d] [| | c]]; cbn; split; try tauto; try discriminate.
Qed.

(** The fields of the written document, one by one. *)
Lemma updated_lookup (todo : TodoUpdate) (now : Z) (d : document) (k : string) :
  fields (updated todo now d) !! k =
    if decide (k = "updated_at") then Some (VDate now)
    else if decide (k = "name") then
      match tu_name todo with Given a => Some (VStr a) | _ => fields d !! k end
    else if decide (k = "description") then
      match tu_description todo with Given a => Some (VStr a) | _ => fields d !! k end
    else if decide (k = "complete") then
      match tu_complete todo with Given a => Some (VBool a) | _ => fields d !! k end
    else fields d !! k.
Proof.
  destruct todo as [[| | n] [| | ds] [| | c]]; cbn;
    repeat case_decide; subst; simplify_map_eq; done.
Qed.

Lemma get_todo_unfold (id : string) (w : collection) :
  get_todo id w =
    match ObjectId id with
    | None => (Raise (HTTPException 400 ("Invalid ID format: " +:+ id)), w)
    | Some oid =>
        match list_find (Matches (by_id oid)) (docs w) with
        | None =>
            (Raise (HTTPException 404 ("Todo with ID " +:+ id +:+ " not found")),
             Collection (docs w) (calls w ++ [call_find_one]))
        | Some (_, d) =>
            (Return (individual_serial d), Collection (docs w) (calls w ++ [call_find_one]))
        end
    end.
Proof.
  unfold get_todo, bind, validate_object_id, find_one, ret, raise, logged, not_found.
  destruct (ObjectId id) as [oid |]; [| done]. cbn [docs calls].
  by destruct (list_find (Matches (by_id oid)) (docs w)) as [[i d] |].
Qed.

Lemma delete_todo_unfold (id : string) (w : collection) :
  delete_todo id w =
    match ObjectId id with
    | None => (Raise (HTTPException 400 ("Invalid ID format: " +:+ id)), w)
    | Some oid =>
        match list_find (Matches (by_id oid)) (docs w) with
        | None =>
            (Raise (HTTPException 404 ("Todo with ID " +:+ id +:+ " not found")),
             Collection (docs w) (calls w ++ [call_delete_one]))
        | Some (i, _) =>
            (Return (), Collection (delete i (docs w)) (calls w ++ [call_delete_one]))
        end
    end.
Proof.
  unfold delete_todo, bind, validate_object_id, delete_one, ret, raise, logged, not_found.
  destruct (ObjectId id) as [oid |]; [| done]. cbn [docs calls].
  by destruct (list_find (Matches (by_id oid)) (docs w)) as [[i d] |].
Qed.

Lemma toggle_todo_malformed (id : string) (now : Z) (w : collection) :
  ObjectId id = None →
  toggle_todo id now w = (Raise (HTTPException 400 ("Invalid ID format: " +:+ id)), w).
Proof.
  intros Hoid. unfold toggle_todo, bind, validate_object_id, raise. by rewrite Hoid.
Qed.

(** C5. When [ObjectId] refuses the string, each of [get_todo],
    [update_todo], [toggle_todo] and [delete_todo] raises the 400 error of
    [validate_object_id] and hands the collection back as it received it:
    the documents are the same and so is the list of calls made on the
    collection, so no storage call was made, and the error is not a 404. *)
Theorem malformed_identifier_is_rejected
    (id : string) (todo : TodoUpdate) (now : Z) (w : collection) :
  ObjectId id = None →
  get_todo id w = (Raise (HTTPException 400 ("Invalid ID format: " +:+ id)), w) ∧
  update_todo id todo now w = (Raise (HTTPException 400 ("Invalid ID format: " +:+ id)), w) ∧
  toggle_todo id now w = (Raise (HTTPException 400 ("Invalid ID format: " +:+ id)), w) ∧
  delete_todo id w = (Raise (HTTPException 400 ("Invalid ID format: " +:+ id)), w).
Proof.
  intros Hoid.
  rewrite get_todo_unfold, update_todo_unfold, delete_todo_unfold, Hoid.
  repeat split. by apply toggle_todo_malformed.
Qed.

(** The documents after [update_todo]: position by position, the document
    before, or what [updated] makes of it. *)
Lemma update_todo_docs (id : string) (todo : TodoUpdate) (now : Z) (w : collection)
    (j : nat) (d' : document) :
  docs (update_todo id todo now w).2 !! j = Some d' →
  ∃ d, docs w !! j = Some d ∧ (d' = d ∨ d' = updated todo now d).
Proof.
  rewrite update_todo_unfold.
  destruct (ObjectId id) as [oid |]; [| by eauto].
  destruct (list_find (Matches (by_id oid)) (docs w)) as [[i d] |] eqn:Hf; [| by eauto].
  destruct (update_data todo); [by eauto |]. cbn [snd docs].
  destruct (found_by_id _ _ _ _ Hf) as [_ Hl].
  destruct (decide (j = i)) as [-> | Hne].
  - rewrite list_lookup_insert_eq by (by eapply lookup_lt_Some).
    intros [= <-]. eauto.
  - rewrite list_lookup_insert_ne by done. eauto.
Qed.

(** C10. In [update_todo] a field sent as [null] counts as a field left
    out: the handler does the same on the body and on the body without its
    nulls; whatever it is given, no field of a stored document becomes null
    that was not null before; and on a document it finds, a body whose
    fields are all null (or left out) raises 400 "No valid fields to
    update" and the documents are unchanged. *)
Theorem null_fields_count_as_omitted
    (id : string) (todo : TodoUpdate) (now : Z) (w : collection) :
  update_todo id todo now w = update_todo id (without_nulls todo) now w ∧
  (∀ j d', docs (update_todo id todo now w).2 !! j = Some d' →
     ∃ d, docs w !! j = Some d ∧ _id d' = _id d ∧
          ∀ k, fields d' !! k = Some VNull → fields d !! k = Some VNull) ∧
  (∀ oid i d,
     ObjectId id = Some oid →
     list_find (Matches (by_id oid)) (docs w) = Some (i, d) →
     absent (tu_name todo) ∧ absent (tu_description todo) ∧ absent (tu_complete todo) →
     ∃ w', update_todo id todo now w =
             (Raise (HTTPException 400 "No valid fields to update"), w') ∧
           docs w' = docs w).
Proof.
  split; [| split].
  - rewrite !update_todo_unfold. unfold updated, update_data.
    by rewrite model_dump_without_nulls.
  - intros j d' Hj. apply update_todo_docs in Hj as (d & Hd & [-> | ->]).
    + by exists d.
    + exists d. split; [done |]. split; [done |].
      intros k. rewrite updated_lookup.
      repeat case_decide; try done; by repeat case_match.
  - intros oid i d Hoid Hf Habs. apply update_data_empty in Habs.
    rewrite update_todo_unfold, Hoid, Hf, Habs. eauto.
Qed.

(** *** Statistics *)

Definition is_completed (d : document) : Prop :=
  fields d !! "complete" = Some (VBool true).

#[export] Instance is_completed_dec (d : document) : Decision (is_completed d).
Proof. unfold is_completed. apply _. Defined.

Lemma filter_completed (l : list document) :
  filter (Matches completed_query) l = filter is_completed l.
Proof. apply list_filter_iff. intros d. apply Matches_completed. Qed.

Lemma filter_not_completed (l : list document) :
  filter (λ d, ¬ Matches completed_query d) l = filter (λ d, ¬ is_completed d) l.
Proof. apply list_filter_iff. intros d. by rewrite Matches_completed. Qed.

(** C2. [get_todo_stats] answers, on every collection and without changing
    its documents: [total], the number of documents; [completed], the
    number of those whose [complete] is true; [pending], their difference,
    so that [completed + pending = total]; and [completion_rate], the
    integer 0 when there is no document, and otherwise the float
    [round(completed / total * 100, 2)], which is the float
    [completed / total * 100] rounded to 2 decimal places: the float nearest
    to [k / 100] for an integer [k] nearest to 100 times its exact value. *)
Theorem stats_summary (w : collection) :
  ∃ s w',
    get_todo_stats w = (Return s, w') ∧
    docs w' = docs w ∧
    total s = Z.of_nat (length (docs w)) ∧
    completed s = Z.of_nat (length (filter is_completed (docs w))) ∧
    pending s = total s - completed s ∧
    completed s + pending s = total s ∧
    0 ≤ completed s ≤ total s ∧
    completion_rate s =
      (if 0 <? total s
       then PyNum.PyFloat
              (PyNum.round (PrimFloat.mul (PyNum.truediv (completed s) (total s))
                                          (PyNum.float_of_int 100)) 2)
       else PyNum.PyInt 0) ∧
    (total s = 0 → completion_rate s = PyNum.PyInt 0) ∧
    (0 < total s →
     ∃ r, completion_rate s = PyNum.PyFloat r ∧
          RoundingSpec.rounded_to 2
            (PrimFloat.mul (PyNum.truediv (completed s) (total s))
                           (PyNum.float_of_int 100)) r).
Proof.
  unfold get_todo_stats, bind, count_documents, ret, logged. cbn [docs calls].
  rewrite (filter_all (Matches (by_fields ∅))) by (apply Forall_forall; intros; apply Matches_all).
  rewrite filter_completed.
  eexists; eexists. split; [reflexivity |]. cbn [docs total completed pending completion_rate].
  pose proof (length_filter is_completed (docs w)).
  repeat split; try lia.
  - intros ->. reflexivity.
  - intros Hpos. apply Z.ltb_lt in Hpos. rewrite Hpos.
    eexists. split; [reflexivity |]. apply round_is_rounded_to.
Qed.

(** *** Deleting *)

Lemma find_by_id_key (oid : ObjId) (l : list document) :
  list_find (Matches (by_id oid)) l = list_find (λ d, _id d = oid) l.
Proof. apply list_find_ext. intros d. apply Matches_by_id. Qed.

(** [delete_completed_todos] on every collection: the answer, and what is
    left of the documents. *)
Lemma delete_completed_todos_unfold (w : collection) :
  delete_completed_todos w =
    (Return [("message",
              "Deleted " +:+ pretty (Z.of_nat (length (filter is_completed (docs w))))
                +:+ " completed todos")],
     Collection (filter (λ d, ¬ is_completed d) (docs w)) (calls w ++ [call_delete_many])).
Proof.
  unfold delete_completed_todos, bind, delete_many, ret, logged. cbn [docs calls].
  by rewrite filter_completed, filter_not_completed.
Qed.

(** A document carries the identifier that the string [id] denotes. *)
Definition carries (id : string) (d : document) : Prop :=
  ObjectId id = Some (_id d).

#[export] Instance carries_dec (id : string) (d : document) : Decision (carries id d).
Proof. unfold carries. apply _. Defined.

Lemma carries_iff (id : string) (oid : ObjId) (d : document) :
  ObjectId id = Some oid → carries id d ↔ _id d = oid.
Proof.
  unfold carries. intros ->. split; [by intros [= ->] | by intros ->].
Qed.

(** [delete_todo], the identifiers of the documents being pairwise distinct. *)
Lemma delete_todo_once (id : string) (w : collection) :
  NoDup (_id <$> docs w) →
  ((∃ d, d ∈ docs w ∧ carries id d) ↔ ∃ w', delete_todo id w = (Return (), w')) ∧
  (∀ w', delete_todo id w = (Return (), w') →
     docs w' = filter (λ d, ¬ carries id d) (docs w) ∧
     S (length (docs w')) = length (docs w) ∧
     ∃ w'', delete_todo id w' =
              (Raise (HTTPException 404 ("Todo with ID " +:+ id +:+ " not found")), w'') ∧
            docs w'' = docs w') ∧
  ((¬ ∃ d, d ∈ docs w ∧ carries id d) →
     ∃ status detail w',
       delete_todo id w = (Raise (HTTPException status detail), w') ∧
       docs w' = docs w).
Proof.
  intros Hnd. rewrite delete_todo_unfold.
  destruct (ObjectId id) as [oid |] eqn:Hoid.
  2:{ split; [| split].
      - split; [| by intros (w' & [=])].
        intros (d & _ & Hc). unfold carries in Hc. by rewrite Hoid in Hc.
      - by intros w' [=].
      - intros _. eauto. }
  rewrite find_by_id_key.
  rewrite (list_filter_iff (λ d, ¬ carries id d) (λ d, _id d ≠ oid))
    by (intros d; by rewrite (carries_iff id oid d Hoid)).
  destruct (list_find (λ d, _id d = oid) (docs w)) as [[i d] |] eqn:Hf.
  - pose proof Hf as Hf'. apply list_find_Some in Hf' as (Hl & Hid & _).
    assert (∃ d, d ∈ docs w ∧ carries id d) as Hex.
    { exists d. split; [by eapply list_elem_of_lookup_2 |].
      by apply (carries_iff id oid d Hoid). }
    split; [| split].
    + split; [by eauto | done].
    + intros w' [= <-]. cbn [docs].
      split; [by apply (delete_first_by_key _id oid (docs w) i d) |].
      split; [by apply (length_delete_found (λ d, _id d = oid) (docs w) i d) |].
      rewrite delete_todo_unfold, Hoid, find_by_id_key. cbn [docs].
      rewrite (find_after_delete_by_key _id oid (docs w) i d Hf Hnd). eauto.
    + intros Hno. by destruct Hno.
  - apply list_find_None in Hf. rewrite Forall_forall in Hf.
    split; [| split].
    + split; [| by intros [w' [=]]]. intros (d & Hd & Hc).
      apply (carries_iff id oid d Hoid) in Hc. by destruct (Hf d Hd).
    + by intros w' [=].
    + intros _. eauto.
Qed.

(** *** Time stamps *)

Lemma toggle_todo_unfold (id : string) (now : Z) (w : collection) :
  toggle_todo id now w =
    match ObjectId id with
    | None => (Raise (HTTPException 400 ("Invalid ID format: " +:+ id)), w)
    | Some oid =>
        match list_find (Matches (by_id oid)) (docs w) with
        | None =>
            (Raise (HTTPException 404 ("Todo with ID " +:+ id +:+ " not found")),
             Collection (docs w) (calls w ++ [call_find_one]))
        | Some (i, d) =>
            (Return (individual_serial (toggled now d)),
             Collection (<[i := toggled now d]> (docs w))
               (calls w ++ [call_find_one; call_update_one; call_find_one]))
        end
    end.
Proof.
  destruct (ObjectId id) as [oid |] eqn:Hoid; [| by apply toggle_todo_malformed].
  destruct (list_find (Matches (by_id oid)) (docs w)) as [[i d] |] eqn:Hf.
  - by apply (toggle_todo_found id now w oid i d).
  - by apply (toggle_todo_missing id now w oid).
Qed.

(** The document [create_todo] inserts. *)
Definition created (new_id : ObjId) (todo : TodoCreate) (now1 now2 : Z) : document :=
  Document new_id
    (set_fields (TodoCreate_model_dump todo
                 ++ [("created_at", VDate now1)] ++ [("updated_at", VDate now2)]) ∅).

Lemma create_todo_unfold (new_id : ObjId) (todo : TodoCreate) (now1 now2 : Z)
    (w : collection) :
  create_todo new_id todo now1 now2 w =
    match list_find (Matches (by_id new_id)) (docs w) with
    | Some _ => (Raise DuplicateKeyError, Collection (docs w) (calls w ++ [call_insert_one]))
    | None =>
        (Return (individual_serial (created new_id todo now1 now2)),
         Collection (docs w ++ [created new_id todo now1 now2])
           (calls w ++ [call_insert_one; call_find_one]))
    end.
Proof.
  unfold create_todo, bind, insert_one, find_one, ret, raise, logged.
  destruct (list_find (Matches (by_id new_id)) (docs w)) as [[i d] |] eqn:Hf; [done |].
  cbn [docs calls]. fold (created new_id todo now1 now2).
  rewrite list_find_app_r by done. cbn [list_find].
  rewrite decide_True by (by apply (proj2 (Matches_by_id _ _))).
  cbn. by rewrite <- !app_assoc.
Qed.

Lemma created_lookup (new_id : ObjId) (todo : TodoCreate) (now1 now2 : Z) :
  fields (created new_id todo now1 now2) !! "created_at" = Some (VDate now1) ∧
  fields (created new_id todo now1 now2) !! "updated_at" = Some (VDate now2).
Proof. by cbn. Qed.

(** The requests that write time stamps, with the readings of the clock
    that serving them takes. *)
Inductive request :=
  | Create (new_id : ObjId) (todo : TodoCreate) (now1 now2 : Z)
  | Update (id : string) (todo : TodoUpdate) (now : Z)
  | Toggle (id : string) (now : Z).

Definition serve (w : collection) (r : request) : collection :=
  match r with
  | Create new_id todo now1 now2 => (create_todo new_id todo now1 now2 w).2
  | Update id todo now => (update_todo id todo now w).2
  | Toggle id now => (toggle_todo id now w).2
  end.

Definition readings (r : request) : list Z :=
  match r with
  | Create _ _ now1 now2 => [now1; now2]
  | Update _ _ now => [now]
  | Toggle _ now => [now]
  end.

(** The readings of a clock that is never set back, the last one before
    them being [t]. *)
Fixpoint nondecreasing (t : Z) (ts : list Z) : Prop :=
  match ts with
  | [] => True
  | t' :: ts' => t ≤ t' ∧ nondecreasing t' ts'
  end.

(** Both stamps are there, in order, and none is later than [t]. *)
Definition stamped (t : Z) (d : document) : Prop :=
  ∃ c u, fields d !! "created_at" = Some (VDate c) ∧
         fields d !! "updated_at" = Some (VDate u) ∧ c ≤ u ∧ u ≤ t.

Lemma stamped_mono (t t' : Z) (d : document) : t ≤ t' → stamped t d → stamped t' d.
Proof. intros Ht (c & u & Hc & Hu & Hcu & Hut). exists c, u. repeat split; [done.. | lia]. Qed.

Lemma last_cons_default (a t : Z) (ts : list Z) :
  List.last (a :: ts) t = List.last ts a.
Proof.
  revert a t. induction ts as [| b ts IH]; intros a t; [done |].
  change (List.last (a :: b :: ts) t) with (List.last (b :: ts) t).
  by rewrite !IH.
Qed.

Lemma nondecreasing_app (t : Z) (ts1 ts2 : list Z) :
  nondecreasing t (ts1 ++ ts2) ↔
  nondecreasing t ts1 ∧ nondecreasing (List.last ts1 t) ts2.
Proof.
  revert t. induction ts1 as [| a ts1 IH]; intros t.
  - cbn. tauto.
  - rewrite last_cons_default. cbn [app nondecreasing]. rewrite IH. tauto.
Qed.

(** Serving one request keeps the stamps in order. *)
Lemma serve_stamped (t : Z) (w : collection) (r : request) :
  Forall (stamped t) (docs w) →
  nondecreasing t (readings r) →
  Forall (stamped (List.last (readings r) t)) (docs (serve w r)).
Proof.
  intros Hw Hr. destruct r as [new_id todo now1 now2 | id todo now | id now];
    cbn [serve readings List.last]; cbn in Hr.
  - rewrite create_todo_unfold.
    assert (Forall (stamped now2) (docs w)) as Hw'
      by (eapply Forall_impl; [done | intros d; apply stamped_mono; lia]).
    destruct (list_find _ _); [done |]. cbn [snd docs].
    apply Forall_app. split; [done |]. apply Forall_singleton.
    destruct (created_lookup new_id todo now1 now2) as [Hc Hu].
    exists now1, now2. repeat split; [done.. | lia | lia].
  - assert (Forall (stamped now) (docs w)) as Hw'
      by (eapply Forall_impl; [done | intros d; apply stamped_mono; lia]).
    rewrite update_todo_unfold.
    destruct (ObjectId id) as [oid |]; [| done].
    destruct (list_find _ _) as [[i d] |] eqn:Hf; [| done].
    destruct (update_data todo); [done |]. cbn [snd docs].
    apply Forall_insert; [done |].
    destruct (found_by_id _ _ _ _ Hf) as [_ Hl].
    rewrite Forall_lookup in Hw. destruct (Hw i d Hl) as (c & u & Hc & Hu & Hcu & Hut).
    exists c, now. rewrite !updated_lookup. repeat case_decide; try done.
    repeat split; [done | lia | lia].
  - assert (Forall (stamped now) (docs w)) as Hw'
      by (eapply Forall_impl; [done | intros d; apply stamped_mono; lia]).
    rewrite toggle_todo_unfold.
    destruct (ObjectId id) as [oid |]; [| done].
    destruct (list_find _ _) as [[i d] |] eqn:Hf; [| done]. cbn [snd docs].
    apply Forall_insert; [done |].
    destruct (found_by_id _ _ _ _ Hf) as [_ Hl].
    rewrite Forall_lookup in Hw. destruct (Hw i d Hl) as (c & u & Hc & Hu & Hcu & Hut).
    exists c, now. rewrite !toggled_lookup. repeat case_decide; try done.
    repeat split; [done | lia | lia].
Qed.

Lemma run_stamped (rs : list request) (t : Z) (w : collection) :
  Forall (stamped t) (docs w) →
  nondecreasing t (concat (readings <$> rs)) →
  ∃ t', Forall (stamped t') (docs (foldl serve w rs)).
Proof.
  revert t w. induction rs as [| r rs IH]; intros t w Hw Hts; [by exists t |].
  cbn [fmap list_fmap concat] in Hts. apply nondecreasing_app in Hts as [Hr Hrs].
  cbn [foldl]. eapply IH; [| exact Hrs]. by apply serve_stamped.
Qed.

(** What [update_todo] and [toggle_todo] leave alone in every document. *)
Definition identity (d : document) : ObjId * option value :=
  (_id d, fields d !! "created_at").

Lemma insert_same_identity (l : list document) (i : nat) (d d' : document) :
  l !! i = Some d → identity d' = identity d →
  identity <$> <[i := d']> l = identity <$> l.
Proof.
  intros Hl Hid. rewrite list_fmap_insert, Hid.
  apply list_insert_id. by rewrite list_lookup_fmap, Hl.
Qed.

(** C8. Let the clock never be set back.  From a collection whose todos
    all carry [created_at <= updated_at], none of the stamps later than the
    clock, serving any sequence of create, update and toggle requests gives
    a collection whose todos all carry [created_at <= updated_at].  A todo
    is created with both stamps, the two readings of the clock; update and
    toggle change neither the identifier nor [created_at] of any todo; and
    on a todo that is found, an update with a field to set, and every
    toggle, succeed and store in place of the todo, and answer with, a todo
    whose [updated_at] is the reading of the clock. *)
Theorem timestamps_stay_ordered (rs : list request) (t : Z) (w : collection) :
  Forall (stamped t) (docs w) →
  nondecreasing t (concat (readings <$> rs)) →
  (∀ d, d ∈ docs (foldl serve w rs) →
     ∃ c u, fields d !! "created_at" = Some (VDate c) ∧
            fields d !! "updated_at" = Some (VDate u) ∧ c ≤ u) ∧
  (∀ new_id todo now1 now2 w0,
     list_find (Matches (by_id new_id)) (docs w0) = None →
     ∃ d, docs (create_todo new_id todo now1 now2 w0).2 = docs w0 ++ [d] ∧
          (create_todo new_id todo now1 now2 w0).1 = Return (individual_serial d) ∧
          _id d = new_id ∧
          fields d !! "created_at" = Some (VDate now1) ∧
          fields d !! "updated_at" = Some (VDate now2)) ∧
  (∀ id todo now w0,
     identity <$> docs (update_todo id todo now w0).2 = identity <$> docs w0) ∧
  (∀ id now w0,
     identity <$> docs (toggle_todo id now w0).2 = identity <$> docs w0) ∧
  (∀ id todo now w0 oid i d,
     ObjectId id = Some oid →
     list_find (Matches (by_id oid)) (docs w0) = Some (i, d) →
     update_data todo ≠ [] →
     ∃ d',
       (update_todo id todo now w0).1 = Return (individual_serial d') ∧
       docs (update_todo id todo now w0).2 = <[i := d']> (docs w0) ∧
       fields d' !! "updated_at" = Some (VDate now) ∧
       s_updated_at (individual_serial d') = VDate now ∧
       identity d' = identity d) ∧
  (∀ id now w0 oid i d,
     ObjectId id = Some oid →
     list_find (Matches (by_id oid)) (docs w0) = Some (i, d) →
     ∃ d',
       (toggle_todo id now w0).1 = Return (individual_serial d') ∧
       docs (toggle_todo id now w0).2 = <[i := d']> (docs w0) ∧
       fields d' !! "updated_at" = Some (VDate now) ∧
       s_updated_at (individual_serial d') = VDate now ∧
       identity d' = identity d).
Proof.
  intros Hw Hts. split; [| split; [| split; [| split; [| split]]]].
  - destruct (run_stamped rs t w Hw Hts) as [t' Ht'].
    rewrite Forall_forall in Ht'. intros d Hd.
    destruct (Ht' d Hd) as (c & u & Hc & Hu & Hcu & _). eauto.
  - intros new_id todo now1 now2 w0 Hfresh. rewrite create_todo_unfold, Hfresh.
    exists (created new_id todo now1 now2).
    destruct (created_lookup new_id todo now1 now2) as [Hc Hu]. done.
  - intros id todo now w0. rewrite update_todo_unfold.
    destruct (ObjectId id) as [oid |]; [| done].
    destruct (list_find _ _) as [[i d] |] eqn:Hf; [| done].
    destruct (update_data todo); [done |]. cbn [snd docs].
    destruct (found_by_id _ _ _ _ Hf) as [_ Hl].
    apply (insert_same_identity _ _ d); [done |].
    unfold identity. rewrite updated_lookup. by repeat case_decide.
  - intros id now w0. rewrite toggle_todo_unfold.
    destruct (ObjectId id) as [oid |]; [| done].
    destruct (list_find _ _) as [[i d] |] eqn:Hf; [| done]. cbn [snd docs].
    destruct (found_by_id _ _ _ _ Hf) as [_ Hl].
    apply (insert_same_identity _ _ d); [done |].
    unfold identity. rewrite toggled_lookup. by repeat case_decide.
  - intros id todo now w0 oid i d Hoid Hf Hdata.
    rewrite update_todo_unfold, Hoid, Hf.
    destruct (update_data todo) as [| kv upd] eqn:Hupd; [done |].
    exists (updated todo now d). cbn [fst snd docs].
    assert (fields (updated todo now d) !! "updated_at" = Some (VDate now)) as Hu
      by (rewrite updated_lookup; by repeat case_decide).
    split; [done |]. split; [done |]. split; [done |].
    split; [cbn [individual_serial s_updated_at]; by rewrite Hu |].
    unfold identity. rewrite updated_lookup. by repeat case_decide.
  - intros id now w0 oid i d Hoid Hf.
    rewrite toggle_todo_unfold, Hoid, Hf.
    exists (toggled now d). cbn [fst snd docs].
    assert (fields (toggled now d) !! "updated_at" = Some (VDate now)) as Hu
      by (rewrite toggled_lookup; by repeat case_decide).
    split; [done |]. split; [done |]. split; [done |].
    split; [cbn [individual_serial s_updated_at]; by rewrite Hu |].
    unfold identity. rewrite toggled_lookup. by repeat case_decide.
Qed.

End Facts.

Section Witnesses.
#[local] Existing Instance Samples.bson.

(** C3 at the sample collection: the second todo, completed, is toggled. *)
Lemma toggle_is_an_involution_witness :
  ObjectId Samples.id_b = Some Samples.id_b ∧
  ∃ d1 d2 w1 w2,
    toggle_todo Samples.id_b 40 Samples.two_todos = (Return (individual_serial d1), w1) ∧
    toggle_todo Samples.id_b 50 w1 = (Return (individual_serial d2), w2) ∧
    fields d1 !! "complete" = Some (VBool false) ∧
    fields d2 !! "complete" = Some (VBool true).
Proof.
  split; [reflexivity |].
  destruct (toggle_is_an_involution Samples.id_b 40 50
              Samples.two_todos Samples.id_b eq_refl) as [Hfound _].
  destruct (Hfound 1%nat (Samples.todo_doc Samples.id_b "read" true 20 30) true
              eq_refl eq_refl)
    as (d1 & d2 & w1 & w2 & H1 & H2 & _ & _ & _ & _ & Hc1 & _ & Hc2 & _).
  exists d1, d2, w1, w2. repeat split; assumption.
Defined.

(** C5 at a string that is no identifier. *)
Lemma malformed_identifier_is_rejected_witness :
  ObjectId "42" = None ∧
  delete_todo "42" Samples.two_todos
    = (Raise (HTTPException 400 "Invalid ID format: 42"), Samples.two_todos).
Proof.
  split; [reflexivity |].
  apply (malformed_identifier_is_rejected "42"
           {| tu_name := Omitted; tu_description := Omitted; tu_complete := Omitted |}
           0 Samples.two_todos eq_refl).
Defined.

(** C10 at a body whose three fields are [null]. *)
Lemma null_fields_count_as_omitted_witness :
  ObjectId Samples.id_a = Some Samples.id_a ∧
  ∃ w', update_todo Samples.id_a
          {| tu_name := Null; tu_description := Null; tu_complete := Null |}
          40 Samples.two_todos
        = (Raise (HTTPException 400 "No valid fields to update"), w') ∧
        docs w' = docs Samples.two_todos.
Proof.
  split; [reflexivity |].
  apply (proj2 (proj2 (null_fields_count_as_omitted Samples.id_a
                         {| tu_name := Null; tu_description := Null; tu_complete := Null |}
                         40 Samples.two_todos))
           Samples.id_a 0%nat
           (Samples.todo_doc Samples.id_a "write" false 10 10) eq_refl eq_refl).
  repeat split.
Defined.

(** C2 on a collection of three todos, one of them completed, where the
    rate 33.333333333333329 is rounded to 33.33, and on the empty one. *)
Lemma stats_summary_witness :
  get_todo_stats Samples.three_todos
    = (Return (Stats 3 1 2 (PyNum.PyFloat 0x1.0aa3d70a3d70ap+5%float)),
       Collection (docs Samples.three_todos)
         [call_count_documents; call_count_documents]) ∧
  (∃ s w' r,
     get_todo_stats Samples.three_todos = (Return s, w') ∧
     completion_rate s = PyNum.PyFloat r ∧
     RoundingSpec.rounded_to 2
       (PrimFloat.mul (PyNum.truediv (completed s) (total s)) (PyNum.float_of_int 100)) r) ∧
  ∃ s w', get_todo_stats (Collection [] []) = (Return s, w') ∧
          completion_rate s = PyNum.PyInt 0.
Proof.
  split; [reflexivity |]. split.
  - destruct (stats_summary Samples.three_todos)
      as (s & w' & Hrun & _ & Htotal & _ & _ & _ & _ & _ & _ & Hrate).
    destruct (Hrate ltac:(by rewrite Htotal)) as (r & Hr & Hrounded).
    by exists s, w', r.
  - destruct (stats_summary (Collection [] []))
      as (s & w' & Hrun & _ & Htotal & _ & _ & _ & _ & _ & Hzero & _).
    exists s, w'. split; [exact Hrun |]. apply Hzero. exact Htotal.
Defined.

(** C8 as first stated fails when the clock is set back: between the two
    readings that [create_todo] takes, or between a create and a toggle, the
    stored todo then carries a [created_at] later than its [updated_at]. *)
Lemma clock_set_back_breaks_the_order :
  (∃ d c u,
     d ∈ docs (foldl serve (Collection [] [])
                 [Create Samples.id_a (Build_TodoCreate "write" "a page" false) 10 9]) ∧
     fields d !! "created_at" = Some (VDate c) ∧
     fields d !! "updated_at" = Some (VDate u) ∧ u < c) ∧
  (∃ d c u,
     d ∈ docs (foldl serve (Collection [] [])
                 [Create Samples.id_a (Build_TodoCreate "write" "a page" false) 10 10;
                  Toggle Samples.id_a 5]) ∧
     fields d !! "created_at" = Some (VDate c) ∧
     fields d !! "updated_at" = Some (VDate u) ∧ u < c).
Proof.
  split.
  - exists (created (H := Samples.bson) Samples.id_a
              (Build_TodoCreate "write" "a page" false) 10 9), 10, 9.
    split; [apply list_elem_of_here |]. split; [reflexivity |]. split; [reflexivity | lia].
  - exists (toggled 5 (created (H := Samples.bson) Samples.id_a
                         (Build_TodoCreate "write" "a page" false) 10 10)),
      10, 5.
    split; [apply list_elem_of_here |]. split; [reflexivity |]. split; [reflexivity | lia].
Qed.

(** C8, as amended, on a run that creates a todo, toggles it and renames
    it, the clock going forward; the toggle stamps the todo with its
    reading. *)
Lemma timestamps_stay_ordered_witness :
  nondecreasing 0 [1; 2; 5; 9] ∧
  (∀ d, d ∈ docs (foldl serve (Collection [] [])
                    [Create Samples.id_a (Build_TodoCreate "write" "a page" false) 1 2;
                     Toggle Samples.id_a 5;
                     Update Samples.id_a (Build_TodoUpdate (Given "rewrite") Omitted Null) 9]) →
        ∃ c u, fields d !! "created_at" = Some (VDate c) ∧
               fields d !! "updated_at" = Some (VDate u) ∧ c ≤ u) ∧
  ∃ d', (toggle_todo Samples.id_b 40 Samples.two_todos).1 = Return (individual_serial d') ∧
        fields d' !! "updated_at" = Some (VDate 40) ∧
        fields d' !! "created_at" = Some (VDate 20).
Proof.
  assert (nondecreasing 0 [1; 2; 5; 9]) as Hclock by (cbn; lia).
  split; [exact Hclock |].
  destruct (timestamps_stay_ordered (H := Samples.bson)
              [Create (H := Samples.bson) Samples.id_a
                 (Build_TodoCreate "write" "a page" false) 1 2;
               Toggle Samples.id_a 5;
               Update Samples.id_a (Build_TodoUpdate (Given "rewrite") Omitted Null) 9]
              0 (Collection [] []) (Forall_nil_2 _) Hclock)
    as (Hordered & _ & _ & _ & _ & Htoggle).
  split; [exact Hordered |].
  destruct (Htoggle Samples.id_b 40 Samples.two_todos Samples.id_b 1%nat
              (Samples.todo_doc Samples.id_b "read" true 20 30) eq_refl eq_refl)
    as (d' & Hrun & _ & Hu & _ & Hid).
  exists d'. split; [exact Hrun |]. split; [exact Hu |].
  unfold identity in Hid. by injection Hid as _ ->.
Defined.

End Witnesses.
End TodoFacts.

(** * Properties of the book services *)

Module BookFacts.
Import Books.

(** The value of an attribute after the pairs of the body were assigned. *)
Definition assigned {A} (x : sent A) (old : option A) : option A :=
  match x with
  | Omitted => old
  | Null => None
  | Given a => Some a
  end.

(** The book after the loop of [setattr], or after [model_copy]. *)
Definition patch {Id} (book_data : BookUpdate) (book : Book Id) : Book Id :=
  foldl setattr book (model_dump_exclude_unset book_data).

Lemma patch_fields {Id} (book_data : BookUpdate) (book : Book Id) :
  patch book_data book =
    mkBook (id book)
      (assigned (bu_title book_data) (title book))
      (assigned (bu_author book_data) (author book))
      (assigned (bu_description book_data) (description book))
      (assigned (bu_rating book_data) (rating book)).
Proof. destruct book, book_data as [[] [] [] []]; reflexivity. Qed.

Lemma patch_nothing {Id} (book : Book Id) :
  patch (Build_BookUpdate Omitted Omitted Omitted Omitted) book = book.
Proof. by destruct book. Qed.

(** The bodies that set no NOT NULL column to [null] and keep the rating
    within 0..100, as the schema of the body requires of a rating. *)
Definition storable (book_data : BookUpdate) : Prop :=
  bu_title book_data ≠ Null ∧ bu_author book_data ≠ Null ∧
  match bu_rating book_data with
  | Omitted => True
  | Null => False
  | Given r => 0 ≤ r ≤ 100
  end.

Lemma constraints_patch (book_data : BookUpdate) (book : Book Z) :
  Relational.constraints book = true →
  storable book_data →
  Relational.constraints (patch book_data book) = true.
Proof.
  unfold Relational.constraints, Relational.valid_rating, storable.
  rewrite patch_fields. cbn [title author rating].
  rewrite !andb_true_iff, !bool_decide_eq_true.
  intros [[Ht Ha] Hr] (Hnt & Hna & Hnr).
  repeat split.
  - destruct (bu_title book_data); done.
  - destruct (bu_author book_data); done.
  - destruct (bu_rating book_data) as [| | r]; [done | done |]. cbn. lia.
Qed.

(** *** SQL/main.py *)

Lemma relational_update_book_unfold (book_id : Z) (book_data : BookUpdate)
    (db : list (Book Z)) :
  Relational.update_book book_id book_data db =
    match list_find (λ b, id b = book_id) db with
    | None =>
        (Raise (HTTPException 404 ("Book with ID " +:+ pretty book_id +:+ " not found")), db)
    | Some (i, book) =>
        if decide (patch book_data book = book) then (Return book, db)
        else if Relational.constraints (patch book_data book)
             then (Return (patch book_data book), <[i := patch book_data book]> db)
             else (Raise IntegrityError, db)
    end.
Proof.
  unfold Relational.update_book, Relational.first_by_id, Relational.commit,
    Relational.refresh, Relational.not_found, bind, raise.
  destruct (list_find (λ b, id b = book_id) db) as [[i book] |] eqn:Hf; [| done].
  apply list_find_Some in Hf as (Hl & _ & _).
  fold (patch book_data book).
  destruct (decide (patch book_data book = book)) as [Heq | Hne].
  - by rewrite Hl.
  - destruct (Relational.constraints (patch book_data book)); [| done].
    rewrite list_lookup_insert_eq by (by eapply lookup_lt_Some). done.
Qed.

Lemma relational_delete_all_books (db : list (Book Z)) :
  Relational.delete_all_books db =
    (Return [("message",
              "Successfully deleted " +:+ pretty (Z.of_nat (length db)) +:+ " book(s)")],
     []).
Proof. reflexivity. Qed.

(** *** Search *)

Section SearchFacts.
Import Relational SearchSpec.

Lemma lower_ascii_idempotent (c : ascii) : lower_ascii (lower_ascii c) = lower_ascii c.
Proof. by destruct c as [[] [] [] [] [] [] [] []]. Qed.

Lemma lower_ascii_percent (c : ascii) : lower_ascii c = "%"%char → c = "%"%char.
Proof. by destruct c as [[] [] [] [] [] [] [] []]. Qed.

Lemma lower_ascii_underscore (c : ascii) : lower_ascii c = "_"%char → c = "_"%char.
Proof. by destruct c as [[] [] [] [] [] [] [] []]. Qed.

Lemma append_cons (c : ascii) (s1 s2 : string) :
  String c s1 +:+ s2 = String c (s1 +:+ s2).
Proof. reflexivity. Qed.

Lemma lower_app (s1 s2 : string) : lower (s1 +:+ s2) = lower s1 +:+ lower s2.
Proof.
  induction s1 as [| c s1 IH]; [done |].
  cbn [lower]. rewrite !append_cons. cbn [lower]. by rewrite IH.
Qed.

(** [%] before a pattern lets the match start anywhere in the text. *)
Lemma like_anywhere (pattern text : string) :
  like (String "%" pattern) text =
    like pattern text ||
    match text with
    | EmptyString => false
    | String _ text' => like (String "%" pattern) text'
    end.
Proof. by destruct text. Qed.

Lemma like_percent (text : string) : like "%" text = true.
Proof.
  induction text as [| c text IH]; [done |].
  rewrite like_anywhere, IH. apply orb_true_r.
Qed.

(** A pattern without wildcards, followed by [%], matches the texts that
    start with it. *)
Lemma like_prefix (param text : string) :
  wildcard_free param →
  like (lower param +:+ "%") (lower text) = String.prefix (lower param) (lower text).
Proof.
  revert text. induction param as [| c param IH]; intros text Hfree.
  - change (lower "" +:+ "%") with "%". rewrite like_percent. by destruct (lower text).
  - destruct Hfree as (Hp & Hu & Hfree).
    cbn [lower]. rewrite append_cons. cbn [like String.prefix].
    rewrite bool_decide_eq_false_2 by (intros Hc; by apply lower_ascii_percent in Hc).
    destruct text as [| d text]; [done |]. cbn [lower].
    rewrite (bool_decide_eq_false_2 (lower_ascii c = "_"%char))
      by (intros Hc; by apply lower_ascii_underscore in Hc).
    rewrite !lower_ascii_idempotent, IH by done. cbn [orb String.prefix].
    destruct (ascii_dec (lower_ascii c) (lower_ascii d)) as [Heq | Hne].
    + by rewrite bool_decide_eq_true_2.
    + by rewrite bool_decide_eq_false_2.
Qed.

Lemma like_occurs_in (param text : string) :
  wildcard_free param →
  like (String "%" (lower param +:+ "%")) (lower text) =
    occurs_in (lower param) (lower text).
Proof.
  intros Hfree. induction text as [| d text IH].
  - rewrite like_anywhere, like_prefix by done. reflexivity.
  - rewrite like_anywhere, like_prefix by done.
    cbn [lower occurs_in]. by rewrite IH.
Qed.

(** For a parameter without wildcards, [ilike] with [%] on both sides is
    the substring match without regard to case. *)
Lemma ilike_substring (param : string) (column : option string) :
  wildcard_free param →
  ilike column ("%" +:+ param +:+ "%") = substring_match param column.
Proof.
  intros Hfree. destruct column as [text |]; [| done].
  unfold ilike, substring_match. rewrite !lower_app.
  by apply like_occurs_in.
Qed.

Lemma elem_of_List_filter {A} (f : A → bool) (l : list A) (x : A) :
  x ∈ List.filter f l ↔ x ∈ l ∧ f x = true.
Proof. rewrite !list_elem_of_In. apply filter_In. Qed.

Lemma substring_match_empty (text : string) : substring_match "" (Some text) = true.
Proof. unfold substring_match. by destruct (lower text). Qed.

(** One of the two text filters of [search_books], on rows whose column is
    not NULL. *)
Lemma text_stage (column : Book Z → option string) (param : option string)
    (query : list (Book Z)) (b : Book Z) :
  (∀ t, param = Some t → wildcard_free t) →
  (∀ b', b' ∈ query → column b' ≠ None) →
  b ∈ match nonempty param with
      | Some t => List.filter (λ b, ilike (column b) ("%" +:+ t +:+ "%")) query
      | None => query
      end
  ↔ b ∈ query ∧ ∀ t, param = Some t → substring_match t (column b) = true.
Proof.
  intros Hfree Hcol. destruct param as [[| c t] |]; cbn [nonempty].
  - split; [| by intros []]. intros Hb. split; [done |].
    intros t [= <-]. specialize (Hcol b Hb).
    destruct (column b) as [text |]; [| done]. apply substring_match_empty.
  - rewrite elem_of_List_filter, ilike_substring by (by apply Hfree).
    split; intros [Hb Hm]; (split; [done |]).
    + by intros t' [= <-].
    + by apply Hm.
  - split; [| by intros []]. intros Hb. split; [done |]. by intros t [=].
Qed.

Lemma rating_stage (min_rating : option Z) (query : list (Book Z)) (b : Book Z) :
  b ∈ match min_rating with
      | Some r => List.filter (λ b, rating_ge (rating b) r) query
      | None => query
      end
  ↔ b ∈ query ∧ ∀ r, min_rating = Some r → ∃ x, rating b = Some x ∧ r ≤ x.
Proof.
  destruct min_rating as [r |].
  - rewrite elem_of_List_filter. unfold rating_ge.
    split; intros [Hb Hm]; (split; [done |]).
    + intros r' [= <-]. destruct (rating b) as [x |]; [| done].
      exists x. split; [done |]. by apply Z.leb_le.
    + destruct (Hm r eq_refl) as (x & -> & Hx). by apply Z.leb_le.
  - split; [| by intros []]. intros Hb. split; [done |]. by intros r [=].
Qed.

(** When the parameters hold no wildcard, [search_books] answers with the
    books that satisfy every predicate provided, the rows meeting the
    constraints of the table. *)
Lemma search_books_without_wildcards (title author : option string)
    (min_rating : option Z) (db : list (Book Z)) :
  (∀ t, title = Some t → wildcard_free t) →
  (∀ a, author = Some a → wildcard_free a) →
  Forall (λ b, constraints b = true) db →
  ∃ result, search_books title author min_rating db = (Return result, db) ∧
            ∀ b, b ∈ result ↔ b ∈ db ∧ satisfies title author min_rating b.
Proof.
  intros Ht Ha Hdb. eexists. split; [reflexivity |]. intros b.
  assert (∀ b', b' ∈ db → Books.title b' ≠ None ∧ Books.author b' ≠ None) as Hnn.
  { rewrite Forall_forall in Hdb. intros b' Hb'. specialize (Hdb b' Hb').
    unfold constraints in Hdb. rewrite !andb_true_iff, !bool_decide_eq_true in Hdb.
    tauto. }
  rewrite rating_stage.
  rewrite (text_stage Books.author author); [| done |].
  - rewrite (text_stage Books.title title); [| done | by intros b' Hb'; apply Hnn].
    unfold satisfies. tauto.
  - intros b' Hb'.
    apply (text_stage Books.title title) in Hb' as [Hb' _];
      [by apply Hnn | done | by intros b'' Hb''; apply Hnn].
Qed.

(** C9 at a parameter that is a wildcard.  Searching the sample table for
    the title ["_"] answers with "Dune", whose title holds no underscore:
    the book is in the result and does not satisfy the predicate on the
    title. *)
Theorem search_books_reads_wildcards :
  search_books (Some "_") None None Samples.shelf
    = (Return [Samples.dune; Samples.emma], Samples.shelf) ∧
  substring_match "_" (Books.title Samples.dune) = false ∧
  ¬ satisfies (Some "_") None None Samples.dune.
Proof.
  split; [reflexivity |]. split; [reflexivity |].
  intros [Htitle _]. specialize (Htitle "_" eq_refl). discriminate Htitle.
Qed.

End SearchFacts.

(** *** basics.py *)

Section InMemoryFacts.
Context `{Uuid}.

Lemma find_from_list_find (index : nat) (book_id : UUID) (books : list (Book UUID)) :
  InMemory.find_from index book_id books =
    prod_map (λ i, (index + i)%nat) (λ b, b) <$> list_find (λ b, id b = book_id) books.
Proof.
  revert index. induction books as [| book rest IH]; intros index; [done |].
  cbn [InMemory.find_from list_find]. case_decide.
  - cbn. by rewrite Nat.add_0_r.
  - rewrite IH. destruct (list_find _ rest) as [[i b] |]; [| done].
    cbn. do 2 f_equal. lia.
Qed.

Lemma find_book_by_id_list_find (book_id : UUID) (books : list (Book UUID)) :
  InMemory.find_from 0 book_id books = list_find (λ b, id b = book_id) books.
Proof.
  rewrite find_from_list_find.
  by destruct (list_find _ books) as [[i b] |].
Qed.

Lemma in_memory_update_book_unfold (book_id : UUID) (book_data : BookUpdate)
    (books : list (Book UUID)) :
  InMemory.update_book book_id book_data books =
    match list_find (λ b, id b = book_id) books with
    | None =>
        (Raise (HTTPException 404 ("Book with ID " +:+ UUID_str book_id +:+ " not found")),
         books)
    | Some (i, book) => (Return (patch book_data book), <[i := patch book_data book]> books)
    end.
Proof.
  unfold InMemory.update_book, InMemory.find_book_by_id, InMemory.not_found, bind, raise.
  rewrite find_book_by_id_list_find.
  by destruct (list_find _ books) as [[i b] |].
Qed.

Lemma in_memory_delete_book_unfold (book_id : UUID) (books : list (Book UUID)) :
  InMemory.delete_book book_id books =
    match list_find (λ b, id b = book_id) books with
    | None =>
        (Raise (HTTPException 404 ("Book with ID " +:+ UUID_str book_id +:+ " not found")),
         books)
    | Some (i, book) =>
        (Return (InMemory.Deleted "Book deleted successfully" (UUID_str (id book))
                   (title book)),
         delete i books)
    end.
Proof.
  unfold InMemory.delete_book, InMemory.find_book_by_id, InMemory.not_found, bind, raise.
  rewrite find_book_by_id_list_find.
  by destruct (list_find _ books) as [[i b] |].
Qed.

(** [delete_book], the identifiers of the books being pairwise distinct. *)
Lemma in_memory_delete_book_once (book_id : UUID) (books : list (Book UUID)) :
  NoDup (id <$> books) →
  ((∃ b, b ∈ books ∧ id b = book_id) ↔
     ∃ r books', InMemory.delete_book book_id books = (Return r, books')) ∧
  (∀ r books', InMemory.delete_book book_id books = (Return r, books') →
     books' = filter (λ b, id b ≠ book_id) books ∧
     S (length books') = length books ∧
     InMemory.delete_book book_id books' =
       (Raise (HTTPException 404 ("Book with ID " +:+ UUID_str book_id +:+ " not found")),
        books')) ∧
  ((¬ ∃ b, b ∈ books ∧ id b = book_id) →
     InMemory.delete_book book_id books =
       (Raise (HTTPException 404 ("Book with ID " +:+ UUID_str book_id +:+ " not found")),
        books)).
Proof.
  intros Hnd. rewrite in_memory_delete_book_unfold.
  destruct (list_find (λ b, id b = book_id) books) as [[i b] |] eqn:Hf.
  - pose proof Hf as Hf'. apply list_find_Some in Hf' as (Hl & Hid & _).
    assert (∃ b, b ∈ books ∧ id b = book_id) as Hex
      by (exists b; split; [by eapply list_elem_of_lookup_2 | done]).
    split; [| split].
    + split; [by eauto | done].
    + intros r books' [= <- <-].
      split; [by apply (delete_first_by_key id book_id books i b) |].
      split; [by apply (length_delete_found (λ b, id b = book_id) books i b) |].
      rewrite in_memory_delete_book_unfold.
      by rewrite (find_after_delete_by_key id book_id books i b Hf Hnd).
    + intros Hno. by destruct Hno.
  - apply list_find_None in Hf. rewrite Forall_forall in Hf.
    split; [| split].
    + split; [| by intros (r & books' & [=])]. intros (b & Hb & Hid). by destruct (Hf b Hb).
    + by intros r books' [=].
    + done.
Qed.

(** Creating a book with an identifier not yet in the list keeps the
    identifiers pairwise distinct. *)
Lemma in_memory_create_book_NoDup (uuid : UUID) (book_data : InMemory.BookCreate)
    (books : list (Book UUID)) :
  NoDup (id <$> books) → uuid ∉ id <$> books →
  NoDup (id <$> (InMemory.create_book uuid book_data books).2).
Proof.
  intros Hnd Hfresh. cbn. rewrite fmap_app. apply NoDup_app.
  split; [done |]. split; [| apply NoDup_singleton].
  cbn. intros x Hx Hin. apply list_elem_of_singleton in Hin. by subst.
Qed.

End InMemoryFacts.

End BookFacts.


(** * Properties shared by the services *)

Module Services.
Import Books Todo TodoFacts BookFacts.
Section Shared.
Context `{Bson} `{Uuid}.

Lemma assigned_omitted {A} (x : sent A) (old : option A) :
  x = Omitted → assigned x old = old.
Proof. by intros ->. Qed.

(** C1, as amended.  On a record that is found, whatever the body: the
    record keeps its place and its identifier, the records at the other
    places are untouched, and every field the body leaves out (for a todo,
    leaves out or sends as [null]) keeps its value.  An answer that is a
    record is the record as stored after the update.  The book handlers
    give that answer when the body sets no NOT NULL column to [null] (the
    in-memory one, always); the todo handler gives it when the body
    provides at least one field. *)
Theorem partial_update_keeps_omitted_fields :
  (∀ (db : list (Book Z)) book_id book_data i book,
     list_find (λ b, id b = book_id) db = Some (i, book) →
     ∃ book',
       (Relational.update_book book_id book_data db).2 !! i = Some book' ∧
       (∀ j, j ≠ i → (Relational.update_book book_id book_data db).2 !! j = db !! j) ∧
       id book' = id book ∧
       (bu_title book_data = Omitted → title book' = title book) ∧
       (bu_author book_data = Omitted → author book' = author book) ∧
       (bu_description book_data = Omitted → description book' = description book) ∧
       (bu_rating book_data = Omitted → rating book' = rating book) ∧
       (∀ r, (Relational.update_book book_id book_data db).1 = Return r → r = book') ∧
       (Relational.constraints book = true → storable book_data →
        (Relational.update_book book_id book_data db).1 = Return book')) ∧
  (∀ (books : list (Book UUID)) book_id book_data i book,
     list_find (λ b, id b = book_id) books = Some (i, book) →
     ∃ book',
       (InMemory.update_book book_id book_data books).2 !! i = Some book' ∧
       (∀ j, j ≠ i → (InMemory.update_book book_id book_data books).2 !! j = books !! j) ∧
       id book' = id book ∧
       (bu_title book_data = Omitted → title book' = title book) ∧
       (bu_author book_data = Omitted → author book' = author book) ∧
       (bu_description book_data = Omitted → description book' = description book) ∧
       (bu_rating book_data = Omitted → rating book' = rating book) ∧
       (InMemory.update_book book_id book_data books).1 = Return book') ∧
  (∀ (w : Todo.collection) id todo now oid i d,
     ObjectId id = Some oid →
     list_find (Todo.Matches (Todo.by_id oid)) (Todo.docs w) = Some (i, d) →
     ∃ d',
       Todo.docs (Todo.update_todo id todo now w).2 !! i = Some d' ∧
       (∀ j, j ≠ i →
          Todo.docs (Todo.update_todo id todo now w).2 !! j = Todo.docs w !! j) ∧
       Todo._id d' = Todo._id d ∧
       (absent (Todo.tu_name todo) →
        Todo.fields d' !! "name" = Todo.fields d !! "name") ∧
       (absent (Todo.tu_description todo) →
        Todo.fields d' !! "description" = Todo.fields d !! "description") ∧
       (absent (Todo.tu_complete todo) →
        Todo.fields d' !! "complete" = Todo.fields d !! "complete") ∧
       (∀ k, k ∉ ["name"; "description"; "complete"; "updated_at"] →
             Todo.fields d' !! k = Todo.fields d !! k) ∧
       (∀ r, (Todo.update_todo id todo now w).1 = Return r →
             r = Todo.individual_serial d') ∧
       (¬ (absent (Todo.tu_name todo) ∧ absent (Todo.tu_description todo)
           ∧ absent (Todo.tu_complete todo)) →
        (Todo.update_todo id todo now w).1 = Return (Todo.individual_serial d'))).
Proof.
  split; [| split].
  - intros db book_id book_data i book Hf.
    rewrite relational_update_book_unfold, Hf.
    pose proof Hf as Hf'. apply list_find_Some in Hf' as (Hl & _ & _).
    destruct (decide (patch book_data book = book)) as [Hsame | Hchanged].
    + exists book. cbn [fst snd].
      repeat split; try done. by intros r [= <-].
    + destruct (Relational.constraints (patch book_data book)) eqn:Hc.
      * exists (patch book_data book). cbn [fst snd].
        rewrite list_lookup_insert_eq by (by eapply lookup_lt_Some).
        rewrite patch_fields. cbn [id title author description rating].
        repeat split; try done; try (by apply assigned_omitted).
        -- intros j Hj. by rewrite list_lookup_insert_ne.
        -- by intros r [= <-].
      * exists book. cbn [fst snd].
        repeat split; try done.
        intros Hok Hst. by rewrite (constraints_patch book_data book Hok Hst) in Hc.
  - intros books book_id book_data i book Hf.
    rewrite in_memory_update_book_unfold, Hf.
    pose proof Hf as Hf'. apply list_find_Some in Hf' as (Hl & _ & _).
    exists (patch book_data book). cbn [fst snd].
    rewrite list_lookup_insert_eq by (by eapply lookup_lt_Some).
    rewrite patch_fields. cbn [id title author description rating].
    repeat split; try done; try (by apply assigned_omitted).
    intros j Hj. by rewrite list_lookup_insert_ne.
  - intros w id todo now oid i d Hoid Hf.
    rewrite update_todo_unfold, Hoid, Hf.
    destruct (found_by_id _ _ _ _ Hf) as [_ Hl].
    destruct (update_data todo) as [| kv upd] eqn:Hupd.
    + exists d. cbn [fst snd Todo.docs].
      repeat split; try done.
      intros Hsome. by apply update_data_empty in Hupd.
    + exists (updated todo now d). cbn [fst snd Todo.docs].
      rewrite list_lookup_insert_eq by (by eapply lookup_lt_Some).
      repeat split; try done.
      * intros j Hj. by rewrite list_lookup_insert_ne.
      * intros Ha. rewrite updated_lookup. repeat case_decide; try done.
        by destruct (Todo.tu_name todo).
      * intros Ha. rewrite updated_lookup. repeat case_decide; try done.
        by destruct (Todo.tu_description todo).
      * intros Ha. rewrite updated_lookup. repeat case_decide; try done.
        by destruct (Todo.tu_complete todo).
      * intros k Hk. rewrite updated_lookup.
        repeat case_decide; subst; try done; exfalso; apply Hk; set_solver.
      * by intros r [= <-].
Qed.

(** C4. On a todo that is found, a body that contributes no field (each
    one left out or [null]) is refused by [update_todo] with 400 "No valid
    fields to update", the documents unchanged; on a book that is found,
    the empty body is accepted by the relational [update_book], which
    answers with the book as it was and leaves the table unchanged. *)
Theorem empty_update_policies :
  (∀ (w : Todo.collection) id todo now oid i d,
     ObjectId id = Some oid →
     list_find (Todo.Matches (Todo.by_id oid)) (Todo.docs w) = Some (i, d) →
     absent (Todo.tu_name todo) ∧ absent (Todo.tu_description todo)
       ∧ absent (Todo.tu_complete todo) →
     Todo.update_todo id todo now w =
       (Raise (HTTPException 400 "No valid fields to update"),
        Todo.Collection (Todo.docs w) (Todo.calls w ++ [Todo.call_find_one])) ∧
     answered HTTP_200_OK (Todo.update_todo id todo now w).1 = 400) ∧
  (∀ (db : list (Book Z)) book_id i book,
     list_find (λ b, id b = book_id) db = Some (i, book) →
     Relational.update_book book_id (Build_BookUpdate Omitted Omitted Omitted Omitted) db =
       (Return book, db) ∧
     answered HTTP_200_OK
       (Relational.update_book book_id
          (Build_BookUpdate Omitted Omitted Omitted Omitted) db).1 = 200).
Proof.
  split.
  - intros w id todo now oid i d Hoid Hf Habs. apply update_data_empty in Habs.
    by rewrite update_todo_unfold, Hoid, Hf, Habs.
  - intros db book_id i book Hf.
    rewrite relational_update_book_unfold, Hf, patch_nothing.
    by rewrite decide_True.
Qed.

(** C6, as amended.  [delete_completed_todos] and both [delete_all_books]
    answer, on every store, with a body whose one member is ["message"],
    a sentence that states the number of records removed; the completed
    todos, respectively all the books, are removed and nothing else; when
    no todo is completed the count is 0 and the documents are unchanged. *)
Theorem bulk_delete_answers_with_a_message :
  (∀ w : Todo.collection,
     ∃ n w',
       Todo.delete_completed_todos w =
         (Return [("message", "Deleted " +:+ pretty n +:+ " completed todos")], w') ∧
       answered HTTP_200_OK (Todo.delete_completed_todos w).1 = 200 ∧
       Todo.docs w' = filter (λ d, ¬ is_completed d) (Todo.docs w) ∧
       n = Z.of_nat (length (filter is_completed (Todo.docs w))) ∧
       n = Z.of_nat (length (Todo.docs w)) - Z.of_nat (length (Todo.docs w')) ∧
       (n = 0 → Todo.docs w' = Todo.docs w)) ∧
  (∀ db : list (Book Z),
     Relational.delete_all_books db =
       (Return [("message",
                 "Successfully deleted " +:+ pretty (Z.of_nat (length db)) +:+ " book(s)")],
        []) ∧
     answered HTTP_200_OK (Relational.delete_all_books db).1 = 200) ∧
  (∀ books : list (Book UUID),
     InMemory.delete_all_books books =
       (Return [("message",
                 "Successfully deleted " +:+ pretty (Z.of_nat (length books)) +:+ " book(s)")],
        []) ∧
     answered HTTP_200_OK (InMemory.delete_all_books books).1 = 200).
Proof.
  split; [| by split].
  intros w. rewrite delete_completed_todos_unfold.
  eexists; eexists. split; [reflexivity |]. split; [reflexivity |]. cbn [Todo.docs].
  pose proof (length_filter_complement is_completed (Todo.docs w)) as Hlen.
  repeat split; [lia |].
  intros Hzero. apply filter_all, Forall_forall. intros d Hd Hc.
  assert (d ∈ filter is_completed (Todo.docs w)) as Hin by (by apply list_elem_of_filter).
  destruct (filter is_completed (Todo.docs w)); [by apply elem_of_nil in Hin | done].
Qed.

(** C7.  The identifiers of the stored records being pairwise distinct,
    [delete_todo] and the in-memory [delete_book] succeed exactly when a
    record carries the identifier; what is left is the store without that
    one record; deleting again raises 404 and leaves the store as the first
    deletion left it.  When no record carries the identifier the handler
    raises an error and the store is unchanged. *)
Theorem delete_succeeds_once
    (id : string) (w : Todo.collection) (book_id : UUID) (books : list (Book UUID)) :
  NoDup (Todo._id <$> Todo.docs w) →
  NoDup (Books.id <$> books) →
  (((∃ d, d ∈ Todo.docs w ∧ carries id d) ↔
      ∃ w', Todo.delete_todo id w = (Return (), w')) ∧
   (∀ w', Todo.delete_todo id w = (Return (), w') →
      Todo.docs w' = filter (λ d, ¬ carries id d) (Todo.docs w) ∧
      S (length (Todo.docs w')) = length (Todo.docs w) ∧
      ∃ w'', Todo.delete_todo id w' =
               (Raise (HTTPException 404 ("Todo with ID " +:+ id +:+ " not found")), w'') ∧
             Todo.docs w'' = Todo.docs w') ∧
   ((¬ ∃ d, d ∈ Todo.docs w ∧ carries id d) →
      ∃ status detail w',
        Todo.delete_todo id w = (Raise (HTTPException status detail), w') ∧
        Todo.docs w' = Todo.docs w)) ∧
  (((∃ b, b ∈ books ∧ Books.id b = book_id) ↔
      ∃ r books', InMemory.delete_book book_id books = (Return r, books')) ∧
   (∀ r books', InMemory.delete_book book_id books = (Return r, books') →
      books' = filter (λ b, Books.id b ≠ book_id) books ∧
      S (length books') = length books ∧
      InMemory.delete_book book_id books' =
        (Raise (HTTPException 404 ("Book with ID " +:+ UUID_str book_id +:+ " not found")),
         books')) ∧
   ((¬ ∃ b, b ∈ books ∧ Books.id b = book_id) →
      InMemory.delete_book book_id books =
        (Raise (HTTPException 404 ("Book with ID " +:+ UUID_str book_id +:+ " not found")),
         books))).
Proof.
  intros Hw Hbooks. split.
  - by apply delete_todo_once.
  - by apply in_memory_delete_book_once.
Qed.

End Shared.

Section Witnesses.
#[local] Existing Instance Samples.bson.
#[local] Existing Instance Samples.uuid.

Definition nothing_sent : Todo.TodoUpdate := Todo.Build_TodoUpdate Omitted Omitted Omitted.

(** C1 as first stated fails on a todo body that provides no field: the
    todo is found, and the answer is the error 400, not a record. *)
Lemma empty_todo_update_returns_no_record :
  ObjectId Samples.id_a = Some Samples.id_a ∧
  list_find (Todo.Matches (Todo.by_id Samples.id_a)) (Todo.docs Samples.two_todos)
    = Some (0%nat, Samples.todo_doc Samples.id_a "write" false 10 10) ∧
  (Todo.update_todo Samples.id_a nothing_sent 40 Samples.two_todos).1
    = Raise (HTTPException 400 "No valid fields to update") ∧
  ¬ ∃ r, (Todo.update_todo Samples.id_a nothing_sent 40 Samples.two_todos).1 = Return r.
Proof.
  split; [reflexivity |]. split; [reflexivity |]. split; [reflexivity |].
  intros [r Hr]. discriminate Hr.
Qed.

(** C1, as amended, on the sample table: a body with a rating only. *)
Lemma partial_update_keeps_omitted_fields_witness :
  list_find (λ b, id b = 1) Samples.shelf = Some (0%nat, Samples.dune) ∧
  ∃ book',
    (Relational.update_book 1 (Build_BookUpdate Omitted Omitted Omitted (Given 95))
       Samples.shelf).1 = Return book' ∧
    title book' = Some "Dune" ∧ author book' = Some "Herbert".
Proof.
  split; [reflexivity |].
  destruct (proj1 partial_update_keeps_omitted_fields Samples.shelf 1
              (Build_BookUpdate Omitted Omitted Omitted (Given 95)) 0%nat Samples.dune
              eq_refl)
    as (book' & _ & _ & _ & Ht & Ha & _ & _ & _ & Hret).
  exists book'. split; [| split].
  - apply Hret; [reflexivity |]. cbn. repeat split; [done | done | lia | lia].
  - by apply Ht.
  - by apply Ha.
Defined.

(** C4 on the samples: the same empty body, refused for a todo and accepted
    for a book. *)
Lemma empty_update_policies_witness :
  Todo.update_todo Samples.id_a nothing_sent 40 Samples.two_todos =
    (Raise (HTTPException 400 "No valid fields to update"),
     Todo.Collection (Todo.docs Samples.two_todos) [Todo.call_find_one]) ∧
  Relational.update_book 1 (Build_BookUpdate Omitted Omitted Omitted Omitted) Samples.shelf
    = (Return Samples.dune, Samples.shelf).
Proof.
  split.
  - apply (proj1 empty_update_policies Samples.two_todos Samples.id_a nothing_sent 40
             Samples.id_a 0%nat (Samples.todo_doc Samples.id_a "write" false 10 10)
             eq_refl eq_refl).
    repeat split.
  - apply (proj2 empty_update_policies Samples.shelf 1 0%nat Samples.dune eq_refl).
Defined.

(** C6 as first stated fails on the empty collection: the body has the
    member ["message"] and no member ["deletedCount"]. *)
Lemma bulk_delete_has_no_deletedCount :
  ∃ body w',
    Todo.delete_completed_todos (Todo.Collection [] []) = (Return body, w') ∧
    body = [("message", "Deleted 0 completed todos")] ∧
    ¬ ∃ v, ("deletedCount", v) ∈ body.
Proof.
  eexists; eexists. split; [reflexivity |]. split; [reflexivity |].
  intros [v Hv]. apply list_elem_of_singleton in Hv. discriminate Hv.
Qed.

(** C6, as amended, on the sample collection: one todo is completed. *)
Lemma bulk_delete_answers_with_a_message_witness :
  ∃ w', Todo.delete_completed_todos Samples.two_todos =
          (Return [("message", "Deleted 1 completed todos")], w') ∧
        Todo.docs w' = [Samples.todo_doc Samples.id_a "write" false 10 10].
Proof.
  destruct (proj1 bulk_delete_answers_with_a_message Samples.two_todos)
    as (n & w' & Hrun & _ & Hdocs & Hn & _).
  exists w'. split.
  - rewrite Hrun, Hn. reflexivity.
  - rewrite Hdocs. reflexivity.
Defined.

(** C7 on the samples: the second todo is deleted, then deleted again. *)
Lemma delete_succeeds_once_witness :
  NoDup (Todo._id <$> Todo.docs Samples.two_todos) ∧
  NoDup (Books.id <$> [Samples.dune_in_memory]) ∧
  ∃ w', Todo.delete_todo Samples.id_b Samples.two_todos = (Return (), w').
Proof.
  assert (NoDup (Todo._id <$> Todo.docs Samples.two_todos)) as Hw.
  { cbn. apply NoDup_cons. split; [| apply NoDup_singleton].
    intros Hin. apply list_elem_of_singleton in Hin. discriminate Hin. }
  assert (NoDup (Books.id <$> [Samples.dune_in_memory])) as Hb
    by apply NoDup_singleton.
  split; [exact Hw |]. split; [exact Hb |].
  apply (proj1 (proj1 (@delete_succeeds_once Samples.bson Samples.uuid
                         Samples.id_b Samples.two_todos
                         7%N [Samples.dune_in_memory] Hw Hb))).
  exists (Samples.todo_doc Samples.id_b "read" true 20 30). split; [| reflexivity].
  apply list_elem_of_here || (apply list_elem_of_further; apply list_elem_of_here).
Defined.

End Witnesses.
End Services.

(** * The handlers evaluated on the samples *)

Module Evaluations.
Import Books.
Section OnSamples.
#[local] Existing Instance Samples.bson.
#[local] Existing Instance Samples.uuid.

Example update_todo_renames :
  (Todo.update_todo Samples.id_a
     (Todo.Build_TodoUpdate (Given "rewrite") Omitted Null) 40 Samples.two_todos).1
  = Return (Todo.Serial Samples.id_a (Todo.VStr "rewrite") (Todo.VStr "to do")
              (Todo.VBool false) (Todo.VDate 10) (Todo.VDate 40)).
Proof. reflexivity. Qed.

Example toggle_todo_completes :
  (Todo.toggle_todo Samples.id_a 40 Samples.two_todos).1
  = Return (Todo.Serial Samples.id_a (Todo.VStr "write") (Todo.VStr "to do")
              (Todo.VBool true) (Todo.VDate 10) (Todo.VDate 40)).
Proof. reflexivity. Qed.

Example toggle_todo_unknown :
  (Todo.toggle_todo "65f0a1b2c3d4e5f6a7b8c9d2" 40 Samples.two_todos).1
  = Raise (HTTPException 404 "Todo with ID 65f0a1b2c3d4e5f6a7b8c9d2 not found").
Proof. reflexivity. Qed.

Example delete_todo_removes :
  Todo.docs (Todo.delete_todo Samples.id_a Samples.two_todos).2
  = [Samples.todo_doc Samples.id_b "read" true 20 30].
Proof. reflexivity. Qed.

Example create_todo_stamps :
  (Todo.create_todo Samples.id_a (Todo.Build_TodoCreate "write" "a page" false) 1 2
     (Todo.Collection [] [])).1
  = Return (Todo.Serial Samples.id_a (Todo.VStr "write") (Todo.VStr "a page")
              (Todo.VBool false) (Todo.VDate 1) (Todo.VDate 2)).
Proof. reflexivity. Qed.

Example update_book_rating :
  Relational.update_book 1 (Build_BookUpdate Omitted Omitted Omitted (Given 95))
    Samples.shelf
  = (Return (mkBook 1 (Some "Dune") (Some "Herbert") None (Some 95)),
     [mkBook 1 (Some "Dune") (Some "Herbert") None (Some 95); Samples.emma]).
Proof. reflexivity. Qed.

Example update_book_null_title :
  Relational.update_book 1 (Build_BookUpdate Null Omitted Omitted Omitted) Samples.shelf
  = (Raise IntegrityError, Samples.shelf).
Proof. reflexivity. Qed.

Example update_book_in_memory_null_title :
  InMemory.update_book 7%N (Build_BookUpdate Null Omitted Omitted Omitted)
    [Samples.dune_in_memory]
  = (Return (mkBook 7%N None (Some "Herbert") (Some "Sand") (Some 90)),
     [mkBook 7%N None (Some "Herbert") (Some "Sand") (Some 90)]).
Proof. reflexivity. Qed.

Example search_books_ignores_case :
  (Relational.search_books (Some "dUn") None None Samples.shelf).1 = Return [Samples.dune].
Proof. reflexivity. Qed.

Example search_books_conjunction :
  (Relational.search_books (Some "m") (Some "aus") (Some 70) Samples.shelf).1
  = Return [Samples.emma].
Proof. reflexivity. Qed.

Example search_books_min_rating :
  (Relational.search_books None (Some "") (Some 80) Samples.shelf).1 = Return [Samples.dune].
Proof. reflexivity. Qed.

Example search_books_percent :
  (Relational.search_books None (Some "%") None Samples.shelf).1
  = Return [Samples.dune; Samples.emma].
Proof. reflexivity. Qed.

(** The floats nearest to 33.33 and to 0.12, written exactly. *)
Example round_one_third :
  PyNum.round (PrimFloat.mul (PyNum.truediv 1 3) (PyNum.float_of_int 100)) 2
  = 0x1.0aa3d70a3d70ap+5%float.
Proof. reflexivity. Qed.

Example round_tie_to_even :
  PyNum.round (PrimFloat.mul (PyNum.truediv 1 800) (PyNum.float_of_int 100)) 2
  = 0x1.eb851eb851eb8p-4%float.
Proof. reflexivity. Qed.

End OnSamples.
End Evaluations.

(** * Further properties of the todo service *)

Module TodoExtras.
Import Todo TodoFacts.
Section Listing.
Context `{Bson}.

Lemma elem_of_window {A} (x : A) (n m : nat) (l : list A) :
  x ∈ take n (drop m l) → x ∈ l.
Proof. intros Hx. apply subseteq_take in Hx. by apply subseteq_drop in Hx. Qed.

Lemma cursor_limit_positive (limit : nat) (l : list document) :
  (1 ≤ limit)%nat → cursor_limit limit l = take limit l.
Proof. by destruct limit; [lia |]. Qed.

Lemma get_todos_unfold (skip limit : nat) (complete : option bool) (l : list document) :
  (1 ≤ limit)%nat →
  get_todos skip limit complete l =
    individual_serial <$>
      take limit (drop skip
        (filter (λ d, ∀ c, complete = Some c → fields d !! "complete" = Some (VBool c)) l)).
Proof.
  intros Hlimit. unfold get_todos, list_serial, find.
  rewrite cursor_limit_positive by done. do 3 f_equal.
  apply list_filter_iff. intros d. destruct complete as [c |].
  - unfold Matches, by_fields; cbn. rewrite map_Forall_singleton.
    split; [by intros [_ Hc] c' [= <-] | by intros Hc; split; [| apply Hc]].
  - split; [by intros _ c [=] | intros _; apply Matches_all].
Qed.

(** X1. The pages of [get_todos] are consecutive windows of one listing:
    a page of [l1] todos from [skip] on, followed by the page of [l2] todos
    from [skip + l1] on, is the page of [l1 + l2] todos from [skip] on; and
    a page never holds more todos than its limit. *)
Theorem get_todos_pages (skip l1 l2 : nat) (complete : option bool) (l : list document) :
  (1 ≤ l1)%nat → (1 ≤ l2)%nat →
  get_todos skip l1 complete l ++ get_todos (skip + l1) l2 complete l
    = get_todos skip (l1 + l2) complete l ∧
  (length (get_todos skip l1 complete l) ≤ l1)%nat.
Proof.
  intros H1 H2. rewrite !get_todos_unfold by lia. split.
  - rewrite <- fmap_app. f_equal.
    rewrite <- (drop_drop _ l1 skip). apply take_take_drop.
  - rewrite length_fmap, length_take. lia.
Qed.

(** X2. The listing filtered on [complete] holds only todos that are
    answered with that value, and, when the page covers the collection,
    exactly the todos that store it, in the order of the collection; the
    unfiltered listing then holds every todo.  A todo that stores no
    [complete] field is answered as not complete by the unfiltered listing,
    and is in neither filtered listing. *)
Theorem get_todos_filters (skip limit : nat) (c : bool) (l : list document) :
  (1 ≤ limit)%nat →
  (∀ s, s ∈ get_todos skip limit (Some c) l → s_complete s = VBool c) ∧
  ((length l ≤ limit)%nat →
     get_todos 0 limit (Some c) l
       = individual_serial <$> filter (λ d, fields d !! "complete" = Some (VBool c)) l ∧
     get_todos 0 limit None l = individual_serial <$> l) ∧
  (∀ d, d ∈ l → fields d !! "complete" = None →
     s_complete (individual_serial d) = VBool false ∧
     ∀ d', d' ∈ find (by_fields {["complete" := VBool c]}) skip limit l → d' ≠ d).
Proof.
  intros Hlimit. split; [| split].
  - intros s. rewrite get_todos_unfold by done.
    intros (d & -> & Hd)%list_elem_of_fmap.
    apply elem_of_window, list_elem_of_filter in Hd as [Hc _].
    cbn. by rewrite (Hc c eq_refl).
  - intros Hlen. rewrite !get_todos_unfold by done. cbn [drop]. split.
    + rewrite take_ge.
      * f_equal. apply list_filter_iff. intros d.
        split; [by intros Hc; apply Hc | by intros Hc c' [= <-]].
      * etrans; [apply length_filter | done].
    + rewrite take_ge.
      * f_equal. apply filter_all, Forall_forall. by intros d _ c' [=].
      * etrans; [apply length_filter | done].
  - intros d Hd Hnone. split; [cbn; by rewrite Hnone |].
    intros d' Hd' ->. unfold find in Hd'. rewrite cursor_limit_positive in Hd' by done.
    apply elem_of_window, list_elem_of_filter in Hd' as [[_ Hc] _].
    cbn in Hc. rewrite map_Forall_singleton in Hc. by rewrite Hnone in Hc.
Qed.

End Listing.

Section ReadingBack.
Context `{Bson}.

Lemma fresh_not_found (new_id : ObjId) (l : list document) :
  (∀ d, d ∈ l → _id d ≠ new_id) → list_find (Matches (by_id new_id)) l = None.
Proof. intros Hfresh. by apply find_by_id_None. Qed.

Lemma find_by_id_appended (oid : ObjId) (l : list document) (d : document) :
  list_find (Matches (by_id oid)) l = None → _id d = oid →
  list_find (Matches (by_id oid)) (l ++ [d]) = Some (length l, d).
Proof.
  intros Hnone Hid. rewrite list_find_app_r by done. cbn [list_find].
  rewrite decide_True by (by apply (proj2 (Matches_by_id _ _))).
  cbn. repeat f_equal; lia.
Qed.

(** X3. A todo created under an identifier that no stored todo carries,
    and that [ObjectId] reads back from its string, is answered with the
    fields of the request and the two readings of the clock; it is stored
    after the todos that were there, which are untouched; and [get_todo] on
    the identifier of the answer gives the same answer. *)
Theorem create_todo_then_get
    (new_id : ObjId) (todo : TodoCreate) (now1 now2 : Z) (w : collection) :
  (∀ d, d ∈ docs w → _id d ≠ new_id) →
  ObjectId (ObjId_str new_id) = Some new_id →
  ∃ r d w',
    create_todo new_id todo now1 now2 w = (Return r, w') ∧
    r = Serial (ObjId_str new_id) (VStr (tc_name todo)) (VStr (tc_description todo))
          (VBool (tc_complete todo)) (VDate now1) (VDate now2) ∧
    docs w' = docs w ++ [d] ∧
    (get_todo (s_id r) w').1 = Return r.
Proof.
  intros Hfresh Hstr. pose proof (fresh_not_found _ _ Hfresh) as Hnone.
  rewrite create_todo_unfold, Hnone.
  eexists; exists (created new_id todo now1 now2); eexists.
  split; [reflexivity |]. split; [reflexivity |]. split; [reflexivity |].
  rewrite get_todo_unfold. cbn [s_id individual_serial _id created docs].
  rewrite Hstr, (find_by_id_appended new_id (docs w) (created new_id todo now1 now2) Hnone eq_refl).
  reflexivity.
Qed.

Lemma get_todo_found (id : string) (w : collection) (oid : ObjId) (i : nat) (d : document) :
  ObjectId id = Some oid →
  list_find (Matches (by_id oid)) (docs w) = Some (i, d) →
  (get_todo id w).1 = Return (individual_serial d).
Proof. intros Hoid Hf. by rewrite get_todo_unfold, Hoid, Hf. Qed.

(** X4. What a write answers is what the next read answers: after
    [update_todo] or [toggle_todo] has answered with a todo, [get_todo] on
    the same identifier answers with that todo; and after [delete_todo] has
    succeeded, the identifiers of the stored todos being pairwise distinct,
    [get_todo] on the same identifier raises 404. *)
Theorem get_todo_after_write (id : string) (w : collection) :
  (∀ todo now r w',
     update_todo id todo now w = (Return r, w') → (get_todo id w').1 = Return r) ∧
  (∀ now r w',
     toggle_todo id now w = (Return r, w') → (get_todo id w').1 = Return r) ∧
  (NoDup (_id <$> docs w) →
   ∀ w', delete_todo id w = (Return (), w') →
     (get_todo id w').1
       = Raise (HTTPException 404 ("Todo with ID " +:+ id +:+ " not found"))).
Proof.
  split; [| split].
  - intros todo now r w'. rewrite update_todo_unfold.
    destruct (ObjectId id) as [oid |] eqn:Hoid; [| done].
    destruct (list_find _ (docs w)) as [[i d] |] eqn:Hf; [| done].
    destruct (update_data todo) eqn:Hupd; [done |]. intros [= <- <-].
    destruct (found_by_id _ _ _ _ Hf) as [Hid _].
    apply (get_todo_found id _ oid i (updated todo now d)); [done |]. cbn [docs].
    by apply (find_by_id_insert oid (docs w) i d).
  - intros now r w'. rewrite toggle_todo_unfold.
    destruct (ObjectId id) as [oid |] eqn:Hoid; [| done].
    destruct (list_find _ (docs w)) as [[i d] |] eqn:Hf; [| done]. intros [= <- <-].
    destruct (found_by_id _ _ _ _ Hf) as [Hid _].
    apply (get_todo_found id _ oid i (toggled now d)); [done |]. cbn [docs].
    by apply (find_by_id_insert oid (docs w) i d).
  - intros Hnd w'. rewrite delete_todo_unfold.
    destruct (ObjectId id) as [oid |] eqn:Hoid; [| done].
    rewrite find_by_id_key.
    destruct (list_find _ (docs w)) as [[i d] |] eqn:Hf; [| done]. intros [= <-].
    rewrite get_todo_unfold, Hoid, find_by_id_key. cbn [docs].
    by rewrite (find_after_delete_by_key _id oid (docs w) i d Hf Hnd).
Qed.

(** The todo body that sets [complete] and nothing else. *)
Definition only_complete (b : bool) : TodoUpdate :=
  {| tu_name := Omitted; tu_description := Omitted; tu_complete := Given b |}.

(** X5. Toggling is updating: on a todo that is found, [toggle_todo] does
    what [update_todo] does with the body that sets [complete], and nothing
    else, to the negation of the truth value of the stored [complete]
    (false when the field is missing): the same answer, the same documents,
    the same calls on the collection. *)
Theorem toggle_todo_is_an_update
    (id : string) (now : Z) (w : collection) (oid : ObjId) (i : nat) (d : document) :
  ObjectId id = Some oid →
  list_find (Matches (by_id oid)) (docs w) = Some (i, d) →
  toggle_todo id now w =
    update_todo id
      (only_complete (negb (truthy (default (VBool false) (fields d !! "complete")))))
      now w.
Proof.
  intros Hoid Hf. by rewrite toggle_todo_unfold, update_todo_unfold, Hoid, Hf.
Qed.

(** X6. On a well-formed identifier that no stored todo carries,
    [get_todo], [update_todo] and [delete_todo] raise 404 and leave the
    documents as they were; [update_todo] does so whatever the body, so an
    empty body on an unknown identifier is answered 404, not 400. *)
Theorem unknown_identifier_is_not_found
    (id : string) (oid : ObjId) (todo : TodoUpdate) (now : Z) (w : collection) :
  ObjectId id = Some oid →
  (∀ d, d ∈ docs w → _id d ≠ oid) →
  let not_found := HTTPException 404 ("Todo with ID " +:+ id +:+ " not found") in
  (get_todo id w).1 = Raise not_found ∧ docs (get_todo id w).2 = docs w ∧
  (update_todo id todo now w).1 = Raise not_found ∧
  docs (update_todo id todo now w).2 = docs w ∧
  (delete_todo id w).1 = Raise not_found ∧ docs (delete_todo id w).2 = docs w.
Proof.
  intros Hoid Hfresh. pose proof (fresh_not_found _ _ Hfresh) as Hnone.
  rewrite get_todo_unfold, update_todo_unfold, delete_todo_unfold, Hoid, Hnone.
  done.
Qed.

End ReadingBack.

Section Invariants.
Context `{Bson}.

Lemma ids_after_replacing (l : list document) (i : nat) (d d' : document) :
  l !! i = Some d → _id d' = _id d → _id <$> <[i := d']> l = _id <$> l.
Proof.
  intros Hl Hid. rewrite list_fmap_insert, Hid.
  apply list_insert_id. by rewrite list_lookup_fmap, Hl.
Qed.

(** X7. The handlers keep the identifiers of the stored todos pairwise
    distinct: [update_todo] and [toggle_todo] leave the list of identifiers
    as it is, [delete_todo] and [delete_completed_todos] only remove from
    it, and [create_todo] adds an identifier only when no stored todo
    carries it, raising [DuplicateKeyError] with the documents unchanged
    otherwise. *)
Theorem identifiers_stay_distinct (w : collection) :
  NoDup (_id <$> docs w) →
  (∀ new_id todo now1 now2,
     NoDup (_id <$> docs (create_todo new_id todo now1 now2 w).2) ∧
     (new_id ∈ _id <$> docs w →
      create_todo new_id todo now1 now2 w
        = (Raise DuplicateKeyError, Collection (docs w) (calls w ++ [call_insert_one])))) ∧
  (∀ id todo now, _id <$> docs (update_todo id todo now w).2 = _id <$> docs w) ∧
  (∀ id now, _id <$> docs (toggle_todo id now w).2 = _id <$> docs w) ∧
  (∀ id, NoDup (_id <$> docs (delete_todo id w).2)) ∧
  NoDup (_id <$> docs (delete_completed_todos w).2).
Proof.
  intros Hnd. split; [| split; [| split; [| split]]].
  - intros new_id todo now1 now2. rewrite create_todo_unfold.
    destruct (list_find _ (docs w)) as [[i d] |] eqn:Hf.
    + split; [done |]. by intros _.
    + pose proof (proj1 (find_by_id_None _ _) Hf) as Hfresh. cbn [snd docs]. split.
      * rewrite fmap_app. apply NoDup_app.
        split; [done |]. split; [| apply NoDup_singleton].
        intros oid Hin Hnew. apply list_elem_of_singleton in Hnew. subst oid.
        apply list_elem_of_fmap in Hin as (d & Hid & Hd). by apply (Hfresh d Hd).
      * intros (d & Hid & Hd)%list_elem_of_fmap. by destruct (Hfresh d Hd).
  - intros id todo now. rewrite update_todo_unfold.
    destruct (ObjectId id) as [oid |]; [| done].
    destruct (list_find _ (docs w)) as [[i d] |] eqn:Hf; [| done].
    destruct (update_data todo); [done |]. cbn [snd docs].
    destruct (found_by_id _ _ _ _ Hf) as [_ Hl]. by apply (ids_after_replacing _ _ d).
  - intros id now. rewrite toggle_todo_unfold.
    destruct (ObjectId id) as [oid |]; [| done].
    destruct (list_find _ (docs w)) as [[i d] |] eqn:Hf; [| done]. cbn [snd docs].
    destruct (found_by_id _ _ _ _ Hf) as [_ Hl]. by apply (ids_after_replacing _ _ d).
  - intros id. rewrite delete_todo_unfold.
    destruct (ObjectId id) as [oid |]; [| done].
    destruct (list_find _ (docs w)) as [[i d] |] eqn:Hf; [| done]. cbn [snd docs].
    apply (sublist_NoDup _ (_id <$> docs w)); [done |].
    apply fmap_sublist, sublist_delete.
  - rewrite delete_completed_todos_unfold. cbn [snd docs].
    apply (sublist_NoDup _ (_id <$> docs w)); [done |].
    apply fmap_sublist, sublist_filter.
Qed.

Lemma get_todo_stats_unfold (w : collection) :
  ∃ rate,
    get_todo_stats w =
      (Return (Stats (Z.of_nat (length (docs w)))
                 (Z.of_nat (length (filter is_completed (docs w))))
                 (Z.of_nat (length (docs w))
                  - Z.of_nat (length (filter is_completed (docs w))))
                 rate),
       Collection (docs w) (calls w ++ [call_count_documents; call_count_documents])).
Proof.
  unfold get_todo_stats, bind, count_documents, ret, logged. cbn [docs calls].
  rewrite (filter_all (Matches (by_fields ∅)))
    by (apply Forall_forall; intros; apply Matches_all).
  rewrite filter_completed, <- app_assoc. eexists. reflexivity.
Qed.

Lemma no_completed_left (l : list document) :
  filter is_completed (filter (λ d, ¬ is_completed d) l) = [].
Proof.
  apply filter_none, Forall_forall. intros d Hd.
  by apply list_elem_of_filter in Hd as [Hd _].
Qed.

(** X8. After [delete_completed_todos], the statistics count no completed
    todo, and their total is the number of todos that were pending before;
    a second [delete_completed_todos] deletes nothing, says so, and leaves
    the documents as the first one left them. *)
Theorem stats_after_delete_completed (w : collection) :
  ∃ before after w1 w2 w3 w4,
    get_todo_stats w = (Return before, w1) ∧
    (delete_completed_todos w).2 = w2 ∧
    get_todo_stats w2 = (Return after, w3) ∧
    completed after = 0 ∧
    total after = pending before ∧
    pending after = pending before ∧
    delete_completed_todos w2 = (Return [("message", "Deleted 0 completed todos")], w4) ∧
    docs w4 = docs w2.
Proof.
  destruct (get_todo_stats_unfold w) as [rate Hbefore].
  destruct (get_todo_stats_unfold (delete_completed_todos w).2) as [rate' Hafter].
  rewrite delete_completed_todos_unfold in Hafter |- *. cbn [snd docs] in Hafter |- *.
  rewrite no_completed_left in Hafter.
  pose proof (length_filter_complement is_completed (docs w)) as Hlen.
  do 6 eexists. split; [exact Hbefore |]. split; [reflexivity |].
  split; [exact Hafter |]. cbn [total completed pending length].
  split; [done |]. split; [lia |]. split; [lia |].
  rewrite delete_completed_todos_unfold. cbn [docs].
  rewrite no_completed_left. split; [reflexivity |]. cbn [docs].
  apply filter_all, Forall_forall. intros d Hd.
  by apply list_elem_of_filter in Hd as [Hd _].
Qed.

(** The todo is answered with a record that has the types and the bounds of
    [TodoResponse]. *)
Definition presentable (d : document) : Prop :=
  TodoResponse_conforms (individual_serial d) = true.

Lemma presentable_fields (d : document) :
  presentable d ↔
  ∃ name description,
    fields d !! "name" = Some (VStr name) ∧ within 1 100 name = true ∧
    fields d !! "description" = Some (VStr description) ∧
    within 1 500 description = true ∧
    (∀ v, fields d !! "complete" = Some v → ∃ b, v = VBool b) ∧
    (∀ v, fields d !! "created_at" = Some v → datetime_or_None v = true) ∧
    (∀ v, fields d !! "updated_at" = Some v → datetime_or_None v = true).
Proof.
  unfold presentable, TodoResponse_conforms, individual_serial.
  cbn [s_name s_description s_complete s_created_at s_updated_at].
  split.
  - intros Hc.
    destruct (fields d !! "name") as [[name | ? | ? |] |];
      destruct (fields d !! "description") as [[description | ? | ? |] |];
      destruct (fields d !! "complete") as [[? | ? | ? |] |];
      cbn in Hc; try done;
      rewrite !andb_true_iff in Hc; destruct Hc as [[[Hn Hd] Hca] Hua]; try done;
      exists name, description; repeat split; try done;
      try (by intros v [= <-]; eauto);
      try (intros v Hv; by rewrite Hv in Hca);
      try (intros v Hv; by rewrite Hv in Hua).
  - intros (name & description & -> & Hn & -> & Hd & Hc & Hca & Hua). cbn.
    assert (∃ b, default (VBool false) (fields d !! "complete") = VBool b) as [b ->].
    { destruct (fields d !! "complete") as [v |]; [by apply Hc | by exists false]. }
    rewrite Hn, Hd. cbn.
    assert (datetime_or_None (default VNull (fields d !! "created_at")) = true) as ->
      by (destruct (fields d !! "created_at") as [v |]; [by apply Hca | done]).
    by destruct (fields d !! "updated_at") as [v |]; [apply Hua |].
Qed.

Lemma updated_fields (todo : TodoUpdate) (now : Z) (d : document) :
  fields (updated todo now d) !! "name"
    = match tu_name todo with Given a => Some (VStr a) | _ => fields d !! "name" end ∧
  fields (updated todo now d) !! "description"
    = match tu_description todo with
      | Given a => Some (VStr a)
      | _ => fields d !! "description"
      end ∧
  fields (updated todo now d) !! "complete"
    = match tu_complete todo with
      | Given a => Some (VBool a)
      | _ => fields d !! "complete"
      end ∧
  fields (updated todo now d) !! "created_at" = fields d !! "created_at" ∧
  fields (updated todo now d) !! "updated_at" = Some (VDate now).
Proof. rewrite !updated_lookup. done. Qed.

Lemma toggled_fields (now : Z) (d : document) :
  fields (toggled now d) !! "name" = fields d !! "name" ∧
  fields (toggled now d) !! "description" = fields d !! "description" ∧
  (∃ b, fields (toggled now d) !! "complete" = Some (VBool b)) ∧
  fields (toggled now d) !! "created_at" = fields d !! "created_at" ∧
  fields (toggled now d) !! "updated_at" = Some (VDate now).
Proof. rewrite !toggled_lookup. repeat split. eexists. reflexivity. Qed.

Lemma presentable_updated (todo : TodoUpdate) (now : Z) (d : document) :
  TodoUpdate_valid todo = true → presentable d → presentable (updated todo now d).
Proof.
  unfold TodoUpdate_valid. rewrite andb_true_iff. intros [Hvn Hvd].
  rewrite !presentable_fields.
  intros (name & description & Hname & Hn & Hdesc & Hd & Hc & Hca & Hua).
  destruct (updated_fields todo now d) as (-> & -> & -> & -> & ->).
  exists (match tu_name todo with Given a => a | _ => name end),
         (match tu_description todo with Given a => a | _ => description end).
  repeat split.
  - by destruct (tu_name todo).
  - by destruct (tu_name todo).
  - by destruct (tu_description todo).
  - by destruct (tu_description todo).
  - intros v. destruct (tu_complete todo); [by apply Hc | by apply Hc |].
    intros [= <-]. eauto.
  - done.
  - by intros v [= <-].
Qed.

Lemma presentable_toggled (now : Z) (d : document) :
  presentable d → presentable (toggled now d).
Proof.
  rewrite !presentable_fields.
  intros (name & description & Hname & Hn & Hdesc & Hd & Hc & Hca & Hua).
  destruct (toggled_fields now d) as (-> & -> & [b ->] & -> & ->).
  exists name, description.
  repeat split; try done.
  - intros v [= <-]. eauto.
  - by intros v [= <-].
Qed.

Lemma presentable_created (new_id : ObjId) (todo : TodoCreate) (now1 now2 : Z) :
  TodoCreate_valid todo = true → presentable (created new_id todo now1 now2).
Proof.
  unfold TodoCreate_valid. rewrite andb_true_iff. intros [Hn Hd].
  apply presentable_fields. exists (tc_name todo), (tc_description todo).
  repeat split; try done; intros v; cbn; by intros [= <-]; eauto.
Qed.

(** X9. Todos that can be answered stay so.  When every stored todo is
    answered with a record that has the types and bounds of [TodoResponse],
    the same holds after [create_todo] of a body within the bounds of
    [TodoCreate], after [update_todo] of a body within the bounds of
    [TodoUpdate], and after [toggle_todo]; so every todo that [get_todo] or
    [get_todos] then answers with is within the bounds of [TodoResponse]. *)
Theorem stored_todos_stay_presentable (w : collection) :
  Forall presentable (docs w) →
  (∀ new_id todo now1 now2,
     TodoCreate_valid todo = true →
     Forall presentable (docs (create_todo new_id todo now1 now2 w).2) ∧
     ∀ r, (create_todo new_id todo now1 now2 w).1 = Return r →
          TodoResponse_conforms r = true) ∧
  (∀ id todo now,
     TodoUpdate_valid todo = true →
     Forall presentable (docs (update_todo id todo now w).2) ∧
     ∀ r, (update_todo id todo now w).1 = Return r → TodoResponse_conforms r = true) ∧
  (∀ id now,
     Forall presentable (docs (toggle_todo id now w).2) ∧
     ∀ r, (toggle_todo id now w).1 = Return r → TodoResponse_conforms r = true) ∧
  (∀ id r, (get_todo id w).1 = Return r → TodoResponse_conforms r = true) ∧
  (∀ skip limit complete r,
     r ∈ get_todos skip limit complete (docs w) → TodoResponse_conforms r = true).
Proof.
  intros Hw. split; [| split; [| split; [| split]]].
  - intros new_id todo now1 now2 Hvalid. rewrite create_todo_unfold.
    pose proof (presentable_created new_id todo now1 now2 Hvalid) as Hnew.
    destruct (list_find _ (docs w)); [done |]. cbn [fst snd docs]. split.
    + apply Forall_app. split; [done |]. by apply Forall_singleton.
    + by intros r [= <-].
  - intros id todo now Hvalid. rewrite update_todo_unfold.
    destruct (ObjectId id) as [oid |]; [| done].
    destruct (list_find _ (docs w)) as [[i d] |] eqn:Hf; [| done].
    destruct (update_data todo); [done |]. cbn [fst snd docs].
    destruct (found_by_id _ _ _ _ Hf) as [_ Hl].
    assert (presentable (updated todo now d)) as Hnew
      by (apply presentable_updated; [done | by apply (Forall_lookup_1 _ _ _ _ Hw Hl)]).
    split; [by apply Forall_insert | by intros r [= <-]].
  - intros id now. rewrite toggle_todo_unfold.
    destruct (ObjectId id) as [oid |]; [| done].
    destruct (list_find _ (docs w)) as [[i d] |] eqn:Hf; [| done]. cbn [fst snd docs].
    destruct (found_by_id _ _ _ _ Hf) as [_ Hl].
    assert (presentable (toggled now d)) as Hnew
      by (apply presentable_toggled; by apply (Forall_lookup_1 _ _ _ _ Hw Hl)).
    split; [by apply Forall_insert | by intros r [= <-]].
  - intros id r. rewrite get_todo_unfold.
    destruct (ObjectId id) as [oid |]; [| done].
    destruct (list_find _ (docs w)) as [[i d] |] eqn:Hf; [| done]. intros [= <-].
    destruct (found_by_id _ _ _ _ Hf) as [_ Hl].
    by apply (Forall_lookup_1 _ _ _ _ Hw Hl).
  - intros skip limit complete r. unfold get_todos, list_serial, find.
    intros (d & -> & Hd)%list_elem_of_fmap.
    assert (d ∈ docs w) as Hin.
    { destruct limit; cbn [cursor_limit] in Hd.
      - by apply subseteq_drop, list_elem_of_filter in Hd as [_ Hd].
      - by apply elem_of_window, list_elem_of_filter in Hd as [_ Hd]. }
    rewrite Forall_forall in Hw. by apply Hw.
Qed.

(** X10. A stored todo without a [name], or without a [description], is
    answered by [individual_serial] with the empty string in its place, which
    is below the minimum length that [TodoResponse] declares for the field:
    the record is not within the bounds of the response model. *)
Theorem missing_text_is_not_presentable (d : document) :
  fields d !! "name" = None ∨ fields d !! "description" = None →
  (fields d !! "name" = None → s_name (individual_serial d) = VStr "") ∧
  (fields d !! "description" = None → s_description (individual_serial d) = VStr "") ∧
  TodoResponse_conforms (individual_serial d) = false.
Proof.
  intros Hmissing. split; [by intros Hn; cbn; rewrite Hn |].
  split; [by intros Hd; cbn; rewrite Hd |].
  apply not_true_is_false. intros Hc. apply presentable_fields in Hc.
  destruct Hc as (name & description & Hname & _ & Hdesc & _).
  destruct Hmissing as [Hn | Hd]; congruence.
Qed.

End Invariants.

Section Witnesses.
#[local] Existing Instance Samples.bson.

(** An identifier that no todo of the sample collection carries. *)
Definition id_c : ObjId (Bson := Samples.bson) := "65f0a1b2c3d4e5f6a7b8c9d2".

Lemma id_c_is_fresh : ∀ d, d ∈ docs Samples.two_todos → _id d ≠ id_c.
Proof.
  intros d Hd. cbn in Hd.
  apply elem_of_cons in Hd as [-> | Hd]; [by intros [=] |].
  apply elem_of_cons in Hd as [-> | Hd]; [by intros [=] |].
  by apply elem_of_nil in Hd.
Defined.

Lemma two_todos_NoDup : NoDup (_id <$> docs Samples.two_todos).
Proof.
  cbn. apply NoDup_cons. split; [| apply NoDup_singleton].
  intros Hin. apply list_elem_of_singleton in Hin. discriminate Hin.
Defined.

Lemma two_todos_presentable : Forall presentable (docs Samples.two_todos).
Proof. cbn. repeat (apply Forall_cons; split; [reflexivity |]). apply Forall_nil_2. Defined.

(** X1 on the sample collection: two pages of one todo each. *)
Lemma get_todos_pages_witness :
  (1 ≤ 1)%nat ∧
  get_todos 0 1 None (docs Samples.two_todos) ++ get_todos 1 1 None (docs Samples.two_todos)
    = get_todos 0 2 None (docs Samples.two_todos).
Proof.
  split; [exact (le_n 1) |].
  exact (proj1 (get_todos_pages 0 1 1 None (docs Samples.two_todos) (le_n 1) (le_n 1))).
Defined.

(** X2 on the sample collection, listing the completed todos. *)
Lemma get_todos_filters_witness :
  (1 ≤ 10)%nat ∧
  ∀ s, s ∈ get_todos 0 10 (Some true) (docs Samples.two_todos) → s_complete s = VBool true.
Proof.
  assert (1 ≤ 10)%nat as Hlimit by lia.
  split; [exact Hlimit |].
  exact (proj1 (get_todos_filters 0 10 true (docs Samples.two_todos) Hlimit)).
Defined.

(** X3 on the sample collection: a third todo is created and read. *)
Lemma create_todo_then_get_witness :
  ObjectId (ObjId_str id_c) = Some id_c ∧
  ∃ r w',
    create_todo id_c (Build_TodoCreate "plan" "a trip" false) 40 41 Samples.two_todos
      = (Return r, w') ∧
    (get_todo (s_id r) w').1 = Return r.
Proof.
  split; [reflexivity |].
  destruct (create_todo_then_get id_c (Build_TodoCreate "plan" "a trip" false) 40 41
              Samples.two_todos id_c_is_fresh eq_refl)
    as (r & d & w' & Hrun & _ & _ & Hget).
  by exists r, w'.
Defined.

(** X4 on the sample collection: the second todo is toggled, then read. *)
Lemma get_todo_after_write_witness :
  ∃ r w',
    toggle_todo Samples.id_b 40 Samples.two_todos = (Return r, w') ∧
    (get_todo Samples.id_b w').1 = Return r.
Proof.
  destruct (toggle_todo Samples.id_b 40 Samples.two_todos) as [[r | e] w'] eqn:Hrun;
    [| discriminate Hrun].
  exists r, w'. split; [reflexivity |].
  exact (proj1 (proj2 (get_todo_after_write Samples.id_b Samples.two_todos)) 40 r w' Hrun).
Defined.

(** X5 on the sample collection: toggling the completed todo is updating
    it with [complete] set to false. *)
Lemma toggle_todo_is_an_update_witness :
  ObjectId Samples.id_b = Some Samples.id_b ∧
  toggle_todo Samples.id_b 40 Samples.two_todos
    = update_todo Samples.id_b (only_complete false) 40 Samples.two_todos.
Proof.
  split; [reflexivity |].
  exact (toggle_todo_is_an_update Samples.id_b 40 Samples.two_todos Samples.id_b 1%nat
           (Samples.todo_doc Samples.id_b "read" true 20 30) eq_refl eq_refl).
Defined.

(** X6 on the sample collection, with an empty body. *)
Lemma unknown_identifier_is_not_found_witness :
  ObjectId id_c = Some id_c ∧
  (update_todo id_c (Build_TodoUpdate Omitted Omitted Omitted) 40 Samples.two_todos).1
    = Raise (HTTPException 404 "Todo with ID 65f0a1b2c3d4e5f6a7b8c9d2 not found").
Proof.
  split; [reflexivity |].
  exact (proj1 (proj2 (proj2
           (unknown_identifier_is_not_found id_c id_c
              (Build_TodoUpdate Omitted Omitted Omitted) 40 Samples.two_todos
              eq_refl id_c_is_fresh)))).
Defined.

(** X7 on the sample collection. *)
Lemma identifiers_stay_distinct_witness :
  NoDup (_id <$> docs Samples.two_todos) ∧
  NoDup (_id <$> docs (delete_completed_todos Samples.two_todos).2).
Proof.
  split; [exact two_todos_NoDup |].
  exact (proj2 (proj2 (proj2 (proj2
           (identifiers_stay_distinct Samples.two_todos two_todos_NoDup))))).
Defined.

(** X9 on the sample collection: the first todo is renamed. *)
Lemma stored_todos_stay_presentable_witness :
  Forall presentable (docs Samples.two_todos) ∧
  Forall presentable
    (docs (update_todo Samples.id_a (Build_TodoUpdate (Given "rewrite") Omitted Null) 40
             Samples.two_todos).2).
Proof.
  split; [exact two_todos_presentable |].
  exact (proj1 (proj1 (proj2
           (stored_todos_stay_presentable Samples.two_todos two_todos_presentable))
           Samples.id_a (Build_TodoUpdate (Given "rewrite") Omitted Null) 40 eq_refl)).
Defined.

(** X10 on a document that stores no field. *)
Lemma missing_text_is_not_presentable_witness :
  fields (Document Samples.id_a ∅) !! "name" = None ∧
  TodoResponse_conforms (individual_serial (Document Samples.id_a ∅)) = false.
Proof.
  split; [reflexivity |].
  exact (proj2 (proj2
           (missing_text_is_not_presentable (Document Samples.id_a ∅) (or_introl eq_refl)))).
Defined.

End Witnesses.
End TodoExtras.

(** * Further properties of the book services *)

Module BookExtras.
Import Books Relational BookFacts.

Section ByKey.
Context {A B : Type} `{EqDecision B} (key : A → B).

(** Writing, at the position of the first element with a key, an element
    with the same key leaves it the first one. *)
Lemma find_by_key_insert (o : B) (l : list A) (i : nat) (x x' : A) :
  list_find (λ y, key y = o) l = Some (i, x) → key x' = o →
  list_find (λ y, key y = o) (<[i := x']> l) = Some (i, x').
Proof.
  intros Hf Hk. apply list_find_Some in Hf as (Hl & _ & Hbefore).
  apply list_find_Some. split; [| split; [done |]].
  - apply list_lookup_insert_eq. by eapply lookup_lt_Some.
  - intros j y Hj Hlt. rewrite list_lookup_insert_ne in Hj by lia. by eapply Hbefore.
Qed.

Lemma keys_after_replacing (l : list A) (i : nat) (x x' : A) :
  l !! i = Some x → key x' = key x → key <$> <[i := x']> l = key <$> l.
Proof.
  intros Hl Hk. rewrite list_fmap_insert, Hk.
  apply list_insert_id. by rewrite list_lookup_fmap, Hl.
Qed.

Lemma find_by_key_appended (o : B) (l : list A) (x : A) :
  (∀ y, y ∈ l → key y ≠ o) → key x = o →
  list_find (λ y, key y = o) (l ++ [x]) = Some (length l, x).
Proof.
  intros Hfresh Hk.
  assert (list_find (λ y, key y = o) l = None) as Hnone
    by (by apply list_find_None, Forall_forall).
  rewrite list_find_app_r by done. cbn [list_find]. rewrite decide_True by done.
  cbn. repeat f_equal; lia.
Qed.

End ByKey.

(** ** SQL/main.py *)



Lemma foldl_max_bound (k : Z) (ks : list Z) :
  k ≤ foldl Z.max k ks ∧ ∀ x, x ∈ ks → x ≤ foldl Z.max k ks.
Proof.
  revert k. induction ks as [| a ks IH]; intros k; cbn [foldl].
  - split; [lia | by intros x Hx%elem_of_nil].
  - destruct (IH (Z.max k a)) as [Hk Hks]. split; [lia |].
    intros x [-> | Hx]%elem_of_cons; [lia | by apply Hks].
Qed.

(** The key of a new row is larger than every key in use. *)
Lemma next_rowid_fresh (db : list (Book Z)) (b : Book Z) :
  b ∈ db → id b < next_rowid db.
Proof.
  intros Hb. unfold next_rowid.
  apply (list_elem_of_fmap_2 id) in Hb.
  destruct (id <$> db) as [| k ks]; [by apply elem_of_nil in Hb |].
  destruct (foldl_max_bound k ks) as [Hk Hks].
  apply elem_of_cons in Hb as [-> | Hb]; [lia |]. specialize (Hks _ Hb). lia.
Qed.

Lemma BookCreate_valid_constraints (book_data : BookCreate) (k : Z) :
  BookCreate_valid book_data = true →
  constraints (mkBook k (Some (bc_title book_data)) (Some (bc_author book_data))
                 (bc_description book_data) (Some (bc_rating book_data))) = true.
Proof.
  unfold BookCreate_valid, constraints, valid_rating, rating_within.
  rewrite !andb_true_iff. intros [_ [Hlo Hhi]]. cbn.
  by rewrite Hlo, Hhi.
Qed.

(** X12. On a table whose keys are below the largest integer of 64 bits,
    the relational [create_book], given a body within the bounds of
    [BookCreate], always succeeds: the new row carries the fields of the
    body and a key that no row of the table carries, it is added after the
    rows that were there, which are untouched, keys that were pairwise
    distinct stay so, and [get_book] on the new key answers with the new
    row.  A rating of 64 bits outside 0..100, should one reach the handler,
    is refused by the table (IntegrityError) and nothing is stored. *)
Theorem create_book_then_get (book_data : BookCreate) (db : list (Book Z)) :
  (∀ b, b ∈ db → id b < 2 ^ 63 - 1) →
  (BookCreate_valid book_data = true →
   ∃ book,
     create_book book_data db = (Return book, db ++ [book]) ∧
     book = mkBook (next_rowid db) (Some (bc_title book_data))
              (Some (bc_author book_data)) (bc_description book_data)
              (Some (bc_rating book_data)) ∧
     (∀ b, b ∈ db → id b ≠ id book) ∧
     (NoDup (id <$> db) → NoDup (id <$> db ++ [book])) ∧
     get_book (id book) (db ++ [book]) = (Return book, db ++ [book])) ∧
  (int64 (bc_rating book_data) → rating_within (bc_rating book_data) = false →
   create_book book_data db = (Raise IntegrityError, db)).
Proof.
  intros _. split.
  - intros Hvalid.
    pose proof (BookCreate_valid_constraints book_data (next_rowid db) Hvalid) as Hc.
    assert (∀ b, b ∈ db → id b ≠ next_rowid db) as Hfresh
      by (intros b Hb%next_rowid_fresh; lia).
    exists (mkBook (next_rowid db) (Some (bc_title book_data))
              (Some (bc_author book_data)) (bc_description book_data)
              (Some (bc_rating book_data))).
    split; [| split; [reflexivity |]].
    + unfold create_book, add_commit, refresh, bind. rewrite Hc.
      rewrite lookup_app_r by lia. by rewrite Nat.sub_diag.
    + cbn [id]. split; [done |]. split.
      * intros Hnd. rewrite fmap_app. apply NoDup_app.
        split; [done |]. split; [| apply NoDup_singleton].
        intros k (b & -> & Hb)%list_elem_of_fmap Hin.
        apply list_elem_of_singleton in Hin. by apply (Hfresh b Hb).
      * unfold get_book, first_by_id, bind, ret.
        by rewrite (find_by_key_appended id (next_rowid db) db).
  - intros _ Hr. unfold create_book, add_commit, bind, constraints, valid_rating.
    cbn [title author rating]. unfold rating_within in Hr. rewrite Hr.
    by rewrite andb_false_r.
Qed.

(** X13. Whatever the body, the relational [update_book] leaves the keys
    of the rows as they are, row by row, and a table whose rows all meet
    the NOT NULL and CHECK constraints of the model still does after it: no
    update stores a rating outside 0..100 or a missing title or author. *)
Theorem update_book_keeps_the_table_sound
    (book_id : Z) (book_data : BookUpdate) (db : list (Book Z)) :
  id <$> (update_book book_id book_data db).2 = id <$> db ∧
  (Forall (λ b, constraints b = true) db →
   Forall (λ b, constraints b = true) (update_book book_id book_data db).2).
Proof.
  rewrite relational_update_book_unfold.
  destruct (list_find (λ b, id b = book_id) db) as [[i book] |] eqn:Hf; [| done].
  apply list_find_Some in Hf as (Hl & _ & _).
  destruct (decide (patch book_data book = book)); [done |].
  destruct (constraints (patch book_data book)) eqn:Hc; [| done]. cbn [snd]. split.
  - apply (keys_after_replacing id _ _ book); [done |]. by rewrite patch_fields.
  - intros Hdb. by apply Forall_insert.
Qed.

(** X14. For a key of 64 bits, what the relational [update_book] answers
    is what the next read answers: after it has answered with a book,
    [get_book] on the same key answers with that book.  On a key of 64 bits
    that no row carries, [get_book] and [update_book] raise 404 and leave
    the table as it was. *)
Theorem get_book_after_update (book_id : Z) (book_data : BookUpdate) (db : list (Book Z)) :
  int64 book_id →
  (∀ r db', update_book book_id book_data db = (Return r, db') →
            get_book book_id db' = (Return r, db')) ∧
  ((∀ b, b ∈ db → id b ≠ book_id) →
   let not_found :=
     HTTPException 404 ("Book with ID " +:+ pretty book_id +:+ " not found") in
   get_book book_id db = (Raise not_found, db) ∧
   update_book book_id book_data db = (Raise not_found, db)).
Proof.
  intros _. split.
  - intros r db'. rewrite relational_update_book_unfold.
    destruct (list_find (λ b, id b = book_id) db) as [[i book] |] eqn:Hf; [| done].
    pose proof Hf as Hf'. apply list_find_Some in Hf' as (Hl & Hid & _).
    unfold get_book, first_by_id, bind, ret.
    destruct (decide (patch book_data book = book)).
    + intros [= <- <-]. by rewrite Hf.
    + destruct (constraints (patch book_data book)); [| done]. intros [= <- <-].
      rewrite (find_by_key_insert id book_id db i book (patch book_data book) Hf);
        [done |]. by rewrite patch_fields.
  - intros Hfresh.
    assert (list_find (λ b, id b = book_id) db = None) as Hnone
      by (by apply list_find_None, Forall_forall).
    rewrite relational_update_book_unfold, Hnone.
    unfold get_book, first_by_id, bind, not_found, raise. by rewrite Hnone.
Qed.


(** The three filters of [search_books] as one test on a row. *)
Definition selected (title author : option string) (min_rating : option Z)
    (b : Book Z) : bool :=
  match nonempty title with
  | Some t => ilike (Books.title b) ("%" +:+ t +:+ "%")
  | None => true
  end
  && match nonempty author with
     | Some a => ilike (Books.author b) ("%" +:+ a +:+ "%")
     | None => true
     end
  && match min_rating with
     | Some r => rating_ge (rating b) r
     | None => true
     end.

Lemma List_filter_filter {A} (f g : A → bool) (l : list A) :
  List.filter g (List.filter f l) = List.filter (λ x, f x && g x) l.
Proof.
  induction l as [| x l IH]; [done |]. cbn.
  destruct (f x); cbn; [| done]. destruct (g x); by rewrite IH.
Qed.

Lemma List_filter_true {A} (l : list A) : List.filter (λ _, true) l = l.
Proof. induction l as [| x l IH]; [done |]. cbn. by rewrite IH. Qed.


Lemma optional_filter {A P} (o : option P) (f : P → A → bool) (l : list A) :
  match o with Some x => List.filter (f x) l | None => l end
    = List.filter (λ b, match o with Some x => f x b | None => true end) l.
Proof. destruct o; [done | by rewrite List_filter_true]. Qed.

Lemma search_books_selected (title author : option string) (min_rating : option Z)
    (db : list (Book Z)) :
  search_books title author min_rating db
    = (Return (List.filter (selected title author min_rating) db), db).
Proof.
  unfold search_books, selected. do 2 f_equal.
  rewrite (optional_filter (nonempty title)
             (λ t b, ilike (Books.title b) ("%" +:+ t +:+ "%"))).
  rewrite (optional_filter (nonempty author)
             (λ a b, ilike (Books.author b) ("%" +:+ a +:+ "%"))).
  rewrite (optional_filter min_rating (λ r b, rating_ge (rating b) r)).
  rewrite !List_filter_filter. apply List.filter_ext. intros b. by rewrite andb_assoc.
Qed.


(** X21. The relational [delete_book], for a key of 64 bits, on a table
    whose keys are pairwise distinct and whose rows meet the constraints of
    the model: on a key that a row carries it answers with the message, the key and the title of that
    row and removes that row and no other; [get_book] and a second
    [delete_book] on the key then raise 404, the second leaving the table as
    the first left it; the keys stay distinct and the rows sound.  On a key
    that no row carries it raises 404 and the table is unchanged.  It never
    fails to build its answer. *)
Theorem delete_book_removes_the_row (book_id : Z) (db : list (Book Z)) :
  int64 book_id →
  NoDup (id <$> db) →
  Forall (λ b, constraints b = true) db →
  let not_found :=
    HTTPException 404 ("Book with ID " +:+ pretty book_id +:+ " not found") in
  (∀ i book,
     list_find (λ b, id b = book_id) db = Some (i, book) →
     ∃ t,
       title book = Some t ∧
       delete_book book_id db
         = (inl (Build_DeleteResponse "Book deleted successfully" book_id t), delete i db) ∧
       get_book book_id (delete i db) = (Raise not_found, delete i db) ∧
       delete_book book_id (delete i db) = (inr (Raised not_found), delete i db) ∧
       NoDup (id <$> delete i db) ∧
       Forall (λ b, constraints b = true) (delete i db)) ∧
  ((∀ b, b ∈ db → id b ≠ book_id) →
   delete_book book_id db = (inr (Raised not_found), db)) ∧
  (∀ db', delete_book book_id db ≠ (inr ValidationError, db')).
Proof.
  intros _ Hnd Hdb. cbn zeta. split; [| split].
  - intros i book Hf.
    pose proof Hf as Hf'. apply list_find_Some in Hf' as (Hl & Hid & _).
    pose proof (Forall_lookup_1 _ _ _ _ Hdb Hl) as Hok.
    unfold constraints in Hok. rewrite !andb_true_iff, !bool_decide_eq_true in Hok.
    destruct Hok as [[Ht _] _].
    destruct (title book) as [t |] eqn:Htitle; [| done]. exists t.
    pose proof (find_after_delete_by_key id book_id db i book Hf Hnd) as Hgone.
    assert (delete_commit book db = delete i db) as Hdel
      by (unfold delete_commit; rewrite Hid;
          symmetry; apply (delete_first_by_key id book_id db i book Hf Hnd)).
    split; [done |]. split; [| split; [| split; [| split]]].
    + unfold delete_book, first_by_id. by rewrite Hf, Htitle, Hdel.
    + unfold get_book, first_by_id, bind. by rewrite Hgone.
    + unfold delete_book, first_by_id. by rewrite Hgone.
    + apply (sublist_NoDup _ (id <$> db)); [done |]. apply fmap_sublist, sublist_delete.
    + by apply Forall_delete.
  - intros Hfresh.
    assert (list_find (λ b, id b = book_id) db = None) as Hnone
      by (by apply list_find_None, Forall_forall).
    unfold delete_book, first_by_id. by rewrite Hnone.
  - intros db'. unfold delete_book, first_by_id.
    destruct (list_find (λ b, id b = book_id) db) as [[i book] |] eqn:Hf; [| done].
    apply list_find_Some in Hf as (Hl & _ & _).
    pose proof (Forall_lookup_1 _ _ _ _ Hdb Hl) as Hok.
    unfold constraints in Hok. rewrite !andb_true_iff, !bool_decide_eq_true in Hok.
    destruct Hok as [[Ht _] _].
    by destruct (title book).
Qed.

(** ** basics.py *)

Section InMemoryExtras.
Context `{Uuid}.

(** X17. [find_book_by_id] answers with the first book of BOOKS that
    carries the identifier, and with the index at which BOOKS holds it; it
    answers [None] exactly when no book carries the identifier; it never
    changes BOOKS. *)
Theorem find_book_by_id_first (book_id : UUID) (books : list (Book UUID)) :
  (∀ i book,
     InMemory.find_book_by_id book_id books = (Return (Some (i, book)), books) ↔
     books !! i = Some book ∧ id book = book_id ∧
     ∀ j b, books !! j = Some b → (j < i)%nat → id b ≠ book_id) ∧
  (InMemory.find_book_by_id book_id books = (Return None, books) ↔
   ∀ b, b ∈ books → id b ≠ book_id).
Proof.
  unfold InMemory.find_book_by_id. rewrite find_book_by_id_list_find. split.
  - intros i book. split.
    + intros [= Hf]. by apply list_find_Some in Hf.
    + intros Hspec.
      by rewrite (proj2 (list_find_Some (λ b, id b = book_id) books i book) Hspec).
  - split.
    + intros [= Hf]. apply list_find_None in Hf. by rewrite Forall_forall in Hf.
    + intros Hnone.
      by rewrite (proj2 (list_find_None (λ b, id b = book_id) books)
                    (proj2 (Forall_forall _ _) Hnone)).
Qed.

(** X18. In memory, a book created under an identifier that no book of
    BOOKS carries is added after the books that were there and is what
    [get_book] on that identifier answers; what [update_book] answers is what
    the next [get_book] answers; and [update_book] leaves the identifiers of
    BOOKS as they are, book by book. *)
Theorem in_memory_reads_back
    (uuid : UUID) (book_data : InMemory.BookCreate) (books : list (Book UUID)) :
  ((∀ b, b ∈ books → id b ≠ uuid) →
   ∃ book,
     InMemory.create_book uuid book_data books = (Return book, books ++ [book]) ∧
     id book = uuid ∧
     InMemory.get_book uuid (books ++ [book]) = (Return book, books ++ [book])) ∧
  (∀ book_id body r books',
     InMemory.update_book book_id body books = (Return r, books') →
     InMemory.get_book book_id books' = (Return r, books') ∧
     id <$> books' = id <$> books).
Proof.
  split.
  - intros Hfresh.
    exists (mkBook uuid (Some (InMemory.bc_title book_data))
              (Some (InMemory.bc_author book_data))
              (Some (InMemory.bc_description book_data))
              (Some (InMemory.bc_rating book_data))).
    split; [reflexivity |]. split; [reflexivity |].
    unfold InMemory.get_book, InMemory.find_book_by_id, bind, ret.
    rewrite find_book_by_id_list_find.
    by rewrite (find_by_key_appended id uuid books).
  - intros book_id body r books'. rewrite in_memory_update_book_unfold.
    destruct (list_find (λ b, id b = book_id) books) as [[i book] |] eqn:Hf; [| done].
    intros [= <- <-]. pose proof Hf as Hf'. apply list_find_Some in Hf' as (Hl & Hid & _).
    split.
    + unfold InMemory.get_book, InMemory.find_book_by_id, bind, ret.
      rewrite find_book_by_id_list_find.
      rewrite (find_by_key_insert id book_id books i book (patch body book) Hf);
        [done |]. by rewrite patch_fields.
    + apply (keys_after_replacing id _ _ book); [done |]. by rewrite patch_fields.
Qed.

(** X19. In memory nothing is checked on update: on a book that is
    found, [update_book] stores [None] in every field for which the body
    sends [null], whatever the declared type of the field, keeps the
    identifier, and returns the book it stored. *)
Theorem in_memory_update_stores_null
    (book_id : UUID) (book_data : BookUpdate) (books : list (Book UUID))
    (i : nat) (book : Book UUID) :
  list_find (λ b, id b = book_id) books = Some (i, book) →
  ∃ book',
    InMemory.update_book book_id book_data books = (Return book', <[i := book']> books) ∧
    id book' = id book ∧
    (bu_title book_data = Null → title book' = None) ∧
    (bu_author book_data = Null → author book' = None) ∧
    (bu_description book_data = Null → description book' = None) ∧
    (bu_rating book_data = Null → rating book' = None).
Proof.
  intros Hf. rewrite in_memory_update_book_unfold, Hf.
  exists (patch book_data book). split; [reflexivity |].
  rewrite patch_fields. cbn [id title author description rating].
  split; [reflexivity |]. repeat split; by intros ->.
Qed.

(** X20. After [delete_all_books] nothing is found, in the table and in
    memory: the listing and the search are empty and [get_book] raises 404
    on every key, the integers given to the relational handlers being of 64
    bits.  The table gives the keys again: the first book created after it
    carries the key 1, whatever keys the deleted rows carried. *)
Theorem nothing_is_left_after_delete_all_books
    (db : list (Book Z)) (books : list (Book UUID)) :
  let db' := (Relational.delete_all_books db).2 in
  let books' := (InMemory.delete_all_books books).2 in
  (∀ skip limit, int64 skip → int64 limit →
     (get_all_books skip limit db').1 = Return []) ∧
  (∀ title author min_rating,
     (∀ r, min_rating = Some r → int64 r) →
     (search_books title author min_rating db').1 = Return []) ∧
  (∀ book_id,
     int64 book_id →
     (get_book book_id db').1
       = Raise (HTTPException 404 ("Book with ID " +:+ pretty book_id +:+ " not found"))) ∧
  (∀ book_data, BookCreate_valid book_data = true →
     ∃ book, create_book book_data db' = (Return book, [book]) ∧ id book = 1) ∧
  (InMemory.get_all_books books').1 = Return [] ∧
  (∀ book_id,
     (InMemory.get_book book_id books').1
       = Raise (HTTPException 404 ("Book with ID " +:+ UUID_str book_id +:+ " not found"))).
Proof.
  cbn zeta. cbn [Relational.delete_all_books InMemory.delete_all_books snd].
  split; [| split; [| split; [| split; [| split]]]].
  - intros skip limit _ _. unfold get_all_books, sql_limit, sql_offset. cbn [fst].
    rewrite drop_nil. destruct (limit <? 0); [done | by rewrite take_nil].
  - intros title author min_rating _. rewrite search_books_selected. done.
  - done.
  - intros book_data Hvalid.
    pose proof (BookCreate_valid_constraints book_data 1 Hvalid) as Hc.
    eexists. unfold create_book, add_commit, refresh, bind, next_rowid.
    cbn [fmap list_fmap]. rewrite Hc. cbn. split; reflexivity.
  - done.
  - done.
Qed.

End InMemoryExtras.

Section Witnesses.
#[local] Existing Instance Samples.uuid.

Lemma shelf_keys_in_range : ∀ b, b ∈ Samples.shelf → id b < 2 ^ 63 - 1.
Proof.
  intros b Hb. unfold Samples.shelf in Hb.
  apply elem_of_cons in Hb as [-> | Hb]; [done |].
  apply elem_of_cons in Hb as [-> | Hb]; [done |].
  by apply elem_of_nil in Hb.
Defined.

Lemma int64_1 : int64 1.
Proof. unfold int64. lia. Defined.

Lemma shelf_is_sound : Forall (λ b, constraints b = true) Samples.shelf.
Proof. repeat (apply Forall_cons; split; [reflexivity |]). apply Forall_nil_2. Defined.


(** X12 on the sample table: a third book is created and read. *)
Lemma create_book_then_get_witness :
  BookCreate_valid (Build_BookCreate "Ulysses" "Joyce" None 80) = true ∧
  ∃ book,
    create_book (Build_BookCreate "Ulysses" "Joyce" None 80) Samples.shelf
      = (Return book, Samples.shelf ++ [book]) ∧
    id book = 3 ∧
    get_book 3 (Samples.shelf ++ [book]) = (Return book, Samples.shelf ++ [book]).
Proof.
  split; [reflexivity |].
  destruct (proj1 (create_book_then_get (Build_BookCreate "Ulysses" "Joyce" None 80)
                     Samples.shelf shelf_keys_in_range) eq_refl)
    as (book & Hrun & -> & _ & _ & Hget).
  eexists. split; [exact Hrun |]. split; [reflexivity | exact Hget].
Defined.

(** X13 on the sample table: the rating of the first book is changed. *)
Lemma update_book_keeps_the_table_sound_witness :
  Forall (λ b, constraints b = true) Samples.shelf ∧
  Forall (λ b, constraints b = true)
    (update_book 1 (Build_BookUpdate Omitted Omitted Omitted (Given 95)) Samples.shelf).2.
Proof.
  split; [exact shelf_is_sound |].
  exact (proj2 (update_book_keeps_the_table_sound 1
                  (Build_BookUpdate Omitted Omitted Omitted (Given 95)) Samples.shelf)
           shelf_is_sound).
Defined.

(** X14 on the sample table: the first book is updated, then read. *)
Lemma get_book_after_update_witness :
  int64 1 ∧
  ∃ r db',
    update_book 1 (Build_BookUpdate Omitted Omitted Omitted (Given 95)) Samples.shelf
      = (Return r, db') ∧
    get_book 1 db' = (Return r, db').
Proof.
  split; [exact int64_1 |].
  destruct (update_book 1 (Build_BookUpdate Omitted Omitted Omitted (Given 95))
              Samples.shelf) as [[r | e] db'] eqn:Hrun; [| discriminate Hrun].
  exists r, db'. split; [reflexivity |].
  exact (proj1 (get_book_after_update 1
                  (Build_BookUpdate Omitted Omitted Omitted (Given 95)) Samples.shelf
                  int64_1)
           r db' Hrun).
Defined.



(** X18 on a list of one book: a second book is created and read. *)
Lemma in_memory_reads_back_witness :
  ∃ book,
    InMemory.create_book 8%N (InMemory.Build_BookCreate "Emma" "Austen" "A novel" 70)
      [Samples.dune_in_memory]
      = (Return book, [Samples.dune_in_memory] ++ [book]) ∧
    InMemory.get_book 8%N ([Samples.dune_in_memory] ++ [book])
      = (Return book, [Samples.dune_in_memory] ++ [book]).
Proof.
  assert (∀ b, b ∈ [Samples.dune_in_memory] → id b ≠ 8%N) as Hfresh.
  { intros b Hb. apply list_elem_of_singleton in Hb as ->. by intros [=]. }
  destruct (proj1 (@in_memory_reads_back Samples.uuid 8%N
                     (InMemory.Build_BookCreate "Emma" "Austen" "A novel" 70)
                     [Samples.dune_in_memory]) Hfresh)
    as (book & Hrun & _ & Hget).
  by exists book.
Defined.

(** X19 on a list of one book, with [null] sent for the title. *)
Lemma in_memory_update_stores_null_witness :
  list_find (λ b, id b = 7%N) [Samples.dune_in_memory]
    = Some (0%nat, Samples.dune_in_memory) ∧
  ∃ book',
    (InMemory.update_book 7%N (Build_BookUpdate Null Omitted Omitted Omitted)
       [Samples.dune_in_memory]).1 = Return book' ∧
    title book' = None.
Proof.
  split; [reflexivity |].
  destruct (@in_memory_update_stores_null Samples.uuid 7%N
              (Build_BookUpdate Null Omitted Omitted Omitted)
              [Samples.dune_in_memory] 0%nat Samples.dune_in_memory eq_refl)
    as (book' & Hrun & _ & Htitle & _).
  exists book'. split; [by rewrite Hrun | by apply Htitle].
Defined.

(** X20 on the sample table: the key 1 is given again. *)
Lemma nothing_is_left_after_delete_all_books_witness :
  BookCreate_valid (Build_BookCreate "Ulysses" "Joyce" None 80) = true ∧
  ∃ book,
    create_book (Build_BookCreate "Ulysses" "Joyce" None 80)
      (Relational.delete_all_books Samples.shelf).2 = (Return book, [book]) ∧
    id book = 1.
Proof.
  split; [reflexivity |].
  exact (proj1 (proj2 (proj2 (proj2
           (@nothing_is_left_after_delete_all_books Samples.uuid Samples.shelf
              [Samples.dune_in_memory]))))
           (Build_BookCreate "Ulysses" "Joyce" None 80) eq_refl).
Defined.

(** X21 on the sample table: the first book is deleted. *)
Lemma delete_book_removes_the_row_witness :
  NoDup (id <$> Samples.shelf) ∧
  Forall (λ b, constraints b = true) Samples.shelf ∧
  delete_book 1 Samples.shelf
    = (inl (Build_DeleteResponse "Book deleted successfully" 1 "Dune"), [Samples.emma]) ∧
  delete_book 1 [Samples.emma]
    = (inr (Raised (HTTPException 404 "Book with ID 1 not found")), [Samples.emma]).
Proof.
  assert (NoDup (id <$> Samples.shelf)) as Hnd.
  { cbn. apply NoDup_cons. split; [| apply NoDup_singleton].
    intros Hin. apply list_elem_of_singleton in Hin. discriminate Hin. }
  split; [exact Hnd |]. split; [exact shelf_is_sound |].
  destruct (proj1 (delete_book_removes_the_row 1 Samples.shelf int64_1 Hnd shelf_is_sound)
              0%nat Samples.dune eq_refl)
    as (t & [= <-] & Hrun & _ & Hagain & _).
  split; [exact Hrun | exact Hagain].
Defined.

End Witnesses.
End BookExtras.
